(** * Geometric primitives of [src/util/primitives.js]: Ray, Frustum, Aabb

    A shallow embedding of the three classes of [primitives.js] and of the
    gl-matrix routines they call, followed by the properties stated about
    them.

    Numbers.  A JavaScript [number] is modelled by a real number ([R]), the
    arithmetic of the source by the exact operations of [R].  Rounding,
    [NaN] and the infinities are outside the model.

    Arrays.  A gl-matrix [vec3] is a record of three reals, a [vec4] one of
    four, a [mat4] one of sixteen.  The methods of [Ray] write their result
    into a buffer the caller passes by reference; for them the arrays live in
    a store and are named by locations, so that writing through a reference
    and rebinding a local name are different things.  [Frustum] and [Aabb]
    only ever build fresh arrays and are embedded as functions on values. *)

From Stdlib Require Import Reals Lra Lia ZArith List Bool.
From stdpp Require Import base list.
Import ListNotations.

Open Scope R_scope.

(** ** Comparisons of numbers as booleans *)

Definition Rltb (x y : R) : bool := if Rlt_dec x y then true else false.
Definition Rleb (x y : R) : bool := if Rle_dec x y then true else false.
Definition Rgtb (x y : R) : bool := Rltb y x.
Definition Rgeb (x y : R) : bool := Rleb y x.
Definition Reqb (x y : R) : bool := if Req_dec_T x y then true else false.

(** ** Vectors and matrices as values *)

Record Vec3 : Type := V3 { x3 : R; y3 : R; z3 : R }.
Record Vec4 : Type := V4 { x4 : R; y4 : R; z4 : R; w4 : R }.

(** A [Float64Array] of 16 entries, column-major as gl-matrix reads it. *)
Record Mat4 : Type := M4 {
  m0 : R; m1 : R; m2 : R; m3 : R;
  m4 : R; m5 : R; m6 : R; m7 : R;
  m8 : R; m9 : R; m10 : R; m11 : R;
  m12 : R; m13 : R; m14 : R; m15 : R }.

(** [v[i]] for [i] in 0..2, and [v[i] = x]. *)
Definition vget (v : Vec3) (i : nat) : R :=
  match i with O => x3 v | S O => y3 v | _ => z3 v end.

Definition vset (v : Vec3) (i : nat) (x : R) : Vec3 :=
  match i with
  | O => V3 x (y3 v) (z3 v)
  | S O => V3 (x3 v) x (z3 v)
  | S (S O) => V3 (x3 v) (y3 v) x
  | _ => v
  end.

Definition vget4 (v : Vec4) (i : nat) : R :=
  match i with O => x4 v | S O => y4 v | S (S O) => z4 v | _ => w4 v end.

(** The vec3 routines of gl-matrix read entries 0..2 of whatever array they
    are handed; on a 4-entry array that is this prefix. *)
Definition xyz (v : Vec4) : Vec3 := V3 (x4 v) (y4 v) (z4 v).

(** gl-matrix: [EPSILON = 0.000001]. *)
Definition EPSILON : R := 1 / 1000000.

(** The value-level content of the gl-matrix [vec3] routines. *)
Module V3ops.

Definition add (a b : Vec3) : Vec3 :=
  V3 (x3 a + x3 b) (y3 a + y3 b) (z3 a + z3 b).

Definition sub (a b : Vec3) : Vec3 :=
  V3 (x3 a - x3 b) (y3 a - y3 b) (z3 a - z3 b).

Definition scale (a : Vec3) (b : R) : Vec3 :=
  V3 (x3 a * b) (y3 a * b) (z3 a * b).

Definition scaleAndAdd (a b : Vec3) (s : R) : Vec3 :=
  V3 (x3 a + x3 b * s) (y3 a + y3 b * s) (z3 a + z3 b * s).

Definition dot (a b : Vec3) : R :=
  x3 a * x3 b + y3 a * y3 b + z3 a * z3 b.

Definition squaredLength (a : Vec3) : R :=
  x3 a * x3 a + y3 a * y3 a + z3 a * z3 a.

(** [Math.hypot(x, y, z)] *)
Definition length (a : Vec3) : R := sqrt (squaredLength a).

Definition cross (a b : Vec3) : Vec3 :=
  V3 (y3 a * z3 b - z3 a * y3 b)
     (z3 a * x3 b - x3 a * z3 b)
     (x3 a * y3 b - y3 a * x3 b).

(** [normalize]: a zero vector stays zero, any other is divided by its
    length. *)
Definition normalize (a : Vec3) : Vec3 :=
  let len := squaredLength a in
  let len := if Rgtb len 0 then 1 / sqrt len else len in
  V3 (x3 a * len) (y3 a * len) (z3 a * len).

(** [equals] is gl-matrix's comparison up to a tolerance ([exactEquals] is
    its [===] one): for each of the three entries,
    [Math.abs(a0 - b0) <=
       glMatrix.EPSILON * Math.max(1.0, Math.abs(a0), Math.abs(b0))]. *)
Definition near (a b : R) : bool :=
  Rleb (Rabs (a - b)) (EPSILON * Rmax 1 (Rmax (Rabs a) (Rabs b))).

Definition equals (a b : Vec3) : bool :=
  near (x3 a) (x3 b) && near (y3 a) (y3 b) && near (z3 a) (z3 b).

End V3ops.

Module V4ops.

Definition transformMat4 (a : Vec4) (m : Mat4) : Vec4 :=
  let x := x4 a in let y := y4 a in let z := z4 a in let w := w4 a in
  V4 (m0 m * x + m4 m * y + m8 m * z + m12 m * w)
     (m1 m * x + m5 m * y + m9 m * z + m13 m * w)
     (m2 m * x + m6 m * y + m10 m * z + m14 m * w)
     (m3 m * x + m7 m * y + m11 m * z + m15 m * w).

Definition mul (a b : Vec4) : Vec4 :=
  V4 (x4 a * x4 b) (y4 a * y4 b) (z4 a * z4 b) (w4 a * w4 b).

End V4ops.

(** ** The store of arrays *)

Abbreviation loc := nat (only parsing).
Abbreviation heap := (list Vec3) (only parsing).

Inductive exn : Type := AssertionError | TypeError.

Inductive outcome (A : Type) : Type :=
| Returned (a : A) (h : heap)
| Thrown (e : exn).
Arguments Returned {A} a h.
Arguments Thrown {A} e.

Definition M (A : Type) : Type := heap -> outcome A.

Definition ret {A} (a : A) : M A := fun h => Returned a h.

Definition bind {A B} (c : M A) (k : A -> M B) : M B :=
  fun h => match c h with
           | Returned a h' => k a h'
           | Thrown e => Thrown e
           end.

Definition throw {A} (e : exn) : M A := fun _ => Thrown e.

Notation "x <- c ;; k" := (bind c (fun x => k))
  (at level 100, c at next level, right associativity).
Notation "c ;;; k" := (bind c (fun _ => k))
  (at level 100, right associativity).

(** Reading an array through a reference that names none is a [TypeError]. *)
Definition load (l : loc) : M Vec3 :=
  fun h => match h !! l with
           | Some v => Returned v h
           | None => Thrown TypeError
           end.

Definition store (l : loc) (v : Vec3) : M unit :=
  fun h => match h !! l with
           | Some _ => Returned tt (<[l := v]> h)
           | None => Thrown TypeError
           end.

(** An array literal ([[]], [[0.0, 0.0, 0.0]]) or [vec3.create()]: a new
    array at a location nothing else refers to. *)
Definition alloc (v : Vec3) : M loc :=
  fun h => Returned (length h) (h ++ [v]).

(** [[]] and [vec3.create()]: the routine it is handed to writes all three
    entries before anything reads them. *)
Definition fresh : M loc := alloc (V3 0 0 0).

Definition assert (b : bool) : M unit :=
  if b then ret tt else throw AssertionError.

(** The gl-matrix [vec3] routines as the source calls them: [out] first,
    result written entry by entry into [out], [out] returned. *)
Module vec3.

Definition binop (f : Vec3 -> Vec3 -> Vec3) (out a b : loc) : M loc :=
  va <- load a ;; vb <- load b ;; store out (f va vb) ;;; ret out.

Definition add := binop V3ops.add.
Definition sub := binop V3ops.sub.

Definition scale (out a : loc) (b : R) : M loc :=
  va <- load a ;; store out (V3ops.scale va b) ;;; ret out.

Definition scaleAndAdd (out a b : loc) (s : R) : M loc :=
  va <- load a ;; vb <- load b ;;
  store out (V3ops.scaleAndAdd va vb s) ;;; ret out.

Definition copy (out a : loc) : M loc :=
  va <- load a ;; store out va ;;; ret out.

Definition create : M loc := fresh.

Definition dot (a b : loc) : M R :=
  va <- load a ;; vb <- load b ;; ret (V3ops.dot va vb).

Definition squaredLength (a : loc) : M R :=
  va <- load a ;; ret (V3ops.squaredLength va).

Definition length (a : loc) : M R :=
  va <- load a ;; ret (V3ops.length va).

Definition equals (a b : loc) : M bool :=
  va <- load a ;; vb <- load b ;; ret (V3ops.equals va vb).

End vec3.

(** ** Ray *)

Module Ray.

Record t : Type := new { pos : loc; dir : loc }.

Definition intersectsPlane (this : t) (pt normal out : loc) : M bool :=
  D <- vec3.dot normal (dir this) ;;
  (* ray is parallel to plane, so it misses *)
  if Rltb (Rabs D) (1 / 1000000) then ret false
  else
    tmp <- vec3.create ;;
    diff <- vec3.sub tmp pt (pos this) ;;
    n <- vec3.dot diff normal ;;
    let t := n / D in
    tmp' <- vec3.create ;;
    intersection <- vec3.scaleAndAdd tmp' (pos this) (dir this) t ;;
    vec3.copy out intersection ;;;
    ret true.

Definition closestPointOnSphere (this : t) (center : loc) (r : R) (out : loc)
  : M bool :=
  sl <- vec3.squaredLength (dir this) ;;
  assert (Rgtb sl 0 && Rgeb r 0) ;;;
  same <- vec3.equals (pos this) center ;;
  if same || Reqb r 0 then
    (* [out = [0.0, 0.0, 0.0]]: the parameter [out] is bound to a new
       array; the array the caller passed is not written *)
    out <- alloc (V3 0 0 0) ;;
    ret false
  else
    e <- fresh ;;
    centerToP <- vec3.sub e (pos this) center ;;
    a <- vec3.dot (dir this) (dir this) ;;
    dp <- vec3.dot centerToP (dir this) ;;
    let b := 2 * dp in
    cc <- vec3.dot centerToP centerToP ;;
    let c := cc - r * r in
    let d := b * b - 4 * a * c in
    if Rltb d 0 then
      (* No intersection, find distance between closest points *)
      vec3.scale centerToP centerToP (-1) ;;;
      p <- vec3.dot centerToP (dir this) ;;
      let t := Rmax p 0 in
      e1 <- fresh ;;
      e2 <- fresh ;;
      scaled <- vec3.scale e2 (dir this) t ;;
      pointOnRay <- vec3.add e1 (pos this) scaled ;;
      e3 <- fresh ;;
      pointToGlobe <- vec3.sub e3 center pointOnRay ;;
      pointToGlobeLength <- vec3.length pointToGlobe ;;
      vec3.scale pointToGlobe pointToGlobe (1 - r / pointToGlobeLength) ;;;
      e4 <- fresh ;;
      sum <- vec3.add e4 pointOnRay pointToGlobe ;;
      vec3.sub out sum center ;;;
      ret false
    else
      assert (Rgtb a 0) ;;;
      let t := (- b - sqrt d) / (2 * a) in
      if Rltb t 0 then
        (* Ray is pointing away from the sphere *)
        len <- vec3.length centerToP ;;
        vec3.scale out centerToP (r / len) ;;;
        ret false
      else
        e1 <- fresh ;;
        dir' <- vec3.scale e1 (dir this) t ;;
        e2 <- fresh ;;
        pos' <- vec3.add e2 (pos this) dir' ;;
        vec3.sub out pos' center ;;;
        ret true.

End Ray.

(** ** Frustum *)

Module Frustum.

Record t : Type := new { points : list Vec4; planes : list Vec4 }.

Definition clipSpaceCorners : list Vec4 :=
  [ V4 (-1) 1 (-1) 1;
    V4 1 1 (-1) 1;
    V4 1 (-1) (-1) 1;
    V4 (-1) (-1) (-1) 1;
    V4 (-1) 1 1 1;
    V4 1 1 1 1;
    V4 1 (-1) 1 1;
    V4 (-1) (-1) 1 1 ].

Definition frustumPlanePointIndices : list (nat * nat * nat) :=
  [ (0, 1, 2);  (* near *)
    (6, 5, 4);  (* far *)
    (0, 3, 7);  (* left *)
    (2, 1, 5);  (* right *)
    (3, 2, 6);  (* bottom *)
    (0, 4, 5)   (* top *) ]%nat.

(** Transform a frustum corner point from clip space to tile space. *)
Definition toTileSpace (invProj : Mat4) (worldSize scale : R)
    (zInMeters : bool) (v : Vec4) : Vec4 :=
  let s := V4ops.transformMat4 v invProj in
  let k := 1 / w4 s / worldSize * scale in
  (* Z scale in meters. *)
  V4ops.mul s (V4 k k (if zInMeters then 1 / w4 s else k) k).

(** [n.concat(d)] *)
Definition concat (n : Vec3) (d : R) : Vec4 := V4 (x3 n) (y3 n) (z3 n) d.

(** One plane from three corners; an index outside the corner array gives
    [undefined], which gl-matrix cannot read: no result. *)
Definition planeOf (frustumCoords : list Vec4) (p : nat * nat * nat)
  : option Vec4 :=
  let '(p0, p1, p2) := p in
  c0 ← frustumCoords !! p0;
  c1 ← frustumCoords !! p1;
  c2 ← frustumCoords !! p2;
  let a := V3ops.sub (xyz c0) (xyz c1) in
  let b := V3ops.sub (xyz c2) (xyz c1) in
  let n := V3ops.normalize (V3ops.cross a b) in
  let d := - V3ops.dot n (xyz c1) in
  Some (concat n d).

(** [Math.pow(2, zoom)] is [Rpower 2 zoom]. *)
Definition fromInvProjectionMatrix (invProj : Mat4) (worldSize zoom : R)
    (zInMeters : bool) : option t :=
  let scale := Rpower 2 zoom in
  let frustumCoords :=
    map (toTileSpace invProj worldSize scale zInMeters) clipSpaceCorners in
  frustumPlanes ← mapM (planeOf frustumCoords) frustumPlanePointIndices;
  Some (new frustumCoords frustumPlanes).

End Frustum.

(** ** Aabb *)

(** [Number.MAX_VALUE], the largest finite double: (2^53 - 1) * 2^971. *)
Definition MAX_VALUE : R := IZR ((2 ^ 53 - 1) * 2 ^ 971).

Module Aabb.

Record t : Type := mk { min : Vec3; max : Vec3; center : Vec3 }.

(** The constructor. *)
Definition new (min_ max_ : Vec3) : t :=
  mk min_ max_ (V3ops.scale (V3ops.add min_ max_) (1 / 2)).

(** The loop of [quadrant] over [axis < split.length]; [split] is what is
    left of the array from [axis] on. *)
Fixpoint quadrantLoop (this : t) (split : list bool) (axis : nat)
    (q : Vec3 * Vec3) : Vec3 * Vec3 :=
  match split with
  | [] => q
  | s :: split' =>
      let '(qMin, qMax) := q in
      let qMin :=
        vset qMin axis
          (if s then vget (min this) axis else vget (center this) axis) in
      let qMax :=
        vset qMax axis
          (if s then vget (center this) axis else vget (max this) axis) in
      quadrantLoop this split' (S axis) (qMin, qMax)
  end.

(** [index % 2] is the remainder of truncated division, [Z.rem]. *)
Definition quadrant (this : t) (index : Z) : t :=
  let split := [Z.eqb (Z.rem index 2) 0; Z.ltb index 2] in
  let qMin := min this in
  let qMax := max this in
  let '(qMin, qMax) := quadrantLoop this split 0 (qMin, qMax) in
  (* Temporarily, elevation is constant, hence quadrant.max.z = this.max.z *)
  let qMax := vset qMax 2 (vget (max this) 2) in
  new qMin qMax.

Definition distanceX (this : t) (point : Vec3) : R :=
  let pointOnAabb :=
    Rmax (Rmin (vget (max this) 0) (vget point 0)) (vget (min this) 0) in
  pointOnAabb - vget point 0.

Definition distanceY (this : t) (point : Vec3) : R :=
  let pointOnAabb :=
    Rmax (Rmin (vget (max this) 1) (vget point 1)) (vget (min this) 1) in
  pointOnAabb - vget point 1.

Definition distanceZ (this : t) (point : Vec3) : R :=
  let pointOnAabb :=
    Rmax (Rmin (vget (max this) 2) (vget point 2)) (vget (min this) 2) in
  pointOnAabb - vget point 2.

Definition getCorners (this : t) : list Vec3 :=
  let mn := min this in
  let mx := max this in
  [ V3 (vget mn 0) (vget mn 1) (vget mn 2);
    V3 (vget mx 0) (vget mn 1) (vget mn 2);
    V3 (vget mx 0) (vget mx 1) (vget mn 2);
    V3 (vget mn 0) (vget mx 1) (vget mn 2);
    V3 (vget mn 0) (vget mn 1) (vget mx 2);
    V3 (vget mx 0) (vget mn 1) (vget mx 2);
    V3 (vget mx 0) (vget mx 1) (vget mx 2);
    V3 (vget mn 0) (vget mx 1) (vget mx 2) ].

(** The inner loop over the corners: [pointsInside += (... >= 0)]. *)
Definition pointsInside (plane : Vec4) (aabbPoints : list Vec3) : nat :=
  fold_left
    (fun pointsInside pt =>
       (pointsInside +
        if Rgeb (V3ops.dot (xyz plane) pt + vget4 plane 3) 0
        then 1 else 0)%nat)
    aabbPoints 0%nat.

(** The loop over the planes.  [None]: the method has returned 0;
    [Some fullyInside]: the loop has run to its end. *)
Fixpoint planeLoop (planes : list Vec4) (aabbPoints : list Vec3)
    (fullyInside : bool) : option bool :=
  match planes with
  | [] => Some fullyInside
  | plane :: planes' =>
      let n := pointsInside plane aabbPoints in
      if Nat.eqb n 0 then None
      else
        planeLoop planes' aabbPoints
          (if negb (Nat.eqb n (length aabbPoints)) then false
           else fullyInside)
  end.

(** The inner loop over the frustum corners on one axis. *)
Definition project (this : t) (points : list Vec4) (axis : nat) : R * R :=
  fold_left
    (fun '(projMin, projMax) p =>
       let projectedPoint := vget4 p axis - vget (min this) axis in
       (Rmin projMin projectedPoint, Rmax projMax projectedPoint))
    points (MAX_VALUE, - MAX_VALUE).

(** The loop over the axes, from [axis] on. *)
Fixpoint axisLoop (this : t) (points : list Vec4) (axes : list nat) : Z :=
  match axes with
  | [] => 1%Z
  | axis :: axes' =>
      let '(projMin, projMax) := project this points axis in
      if Rltb projMax 0
         || Rgtb projMin (vget (max this) axis - vget (min this) axis)
      then 0%Z
      else axisLoop this points axes'
  end.

(** Performs a frustum-aabb intersection test. Returns 0 if there's no
    intersection, 1 if shapes are intersecting and 2 if the aabb if fully
    inside the frustum. *)
Definition intersects (this : t) (frustum : Frustum.t) : Z :=
  let aabbPoints := getCorners this in
  match planeLoop (Frustum.planes frustum) aabbPoints true with
  | None => 0%Z
  | Some fullyInside =>
      if fullyInside then 2%Z
      else axisLoop this (Frustum.points frustum) (seq 0 3)
  end.

End Aabb.

(** ** The quantities the statements about [closestPointOnSphere] name

    Written from the statements, in terms of the contents [vpos], [vdir],
    [vc] of the arrays [pos], [dir], [center]. *)

Module Sphere.
Section Quantities.
Context (vpos vdir vc : Vec3) (r : R).

Definition centerToP : Vec3 := V3ops.sub vpos vc.
Definition a : R := V3ops.dot vdir vdir.
Definition b : R := 2 * V3ops.dot centerToP vdir.
Definition c : R := V3ops.dot centerToP centerToP - r * r.

(** [d = b^2 - 4ac] *)
Definition discriminant : R := b * b - 4 * a * c.

(** [t = (-b - sqrt(d)) / (2a)] *)
Definition nearerRoot : R := (- b - sqrt discriminant) / (2 * a).

(** [pos + t * dir - center] *)
Definition pointAt (t : R) : Vec3 :=
  V3ops.sub (V3ops.add vpos (V3ops.scale vdir t)) vc.

(** [centerToP] rescaled to length [r] *)
Definition nearestToOrigin : Vec3 :=
  V3ops.scale centerToP (r / V3ops.length centerToP).

(** With [t = max(dot(-centerToP, dir), 0)],
    [pointOnRay = pos + t * dir], and
    [v = (center - pointOnRay)] scaled by
    [1 - r / |center - pointOnRay|]:  [pointOnRay + v - center]. *)
Definition missPoint : Vec3 :=
  let t := Rmax (V3ops.dot (V3ops.scale centerToP (-1)) vdir) 0 in
  let pointOnRay := V3ops.add vpos (V3ops.scale vdir t) in
  let toCenter := V3ops.sub vc pointOnRay in
  let v := V3ops.scale toCenter (1 - r / V3ops.length toCenter) in
  V3ops.sub (V3ops.add pointOnRay v) vc.

End Quantities.
End Sphere.

(** ** The quantities the statements about [Frustum] and [Aabb] name *)

Module FrustumSpec.

(** The clip-space corner [(sx, sy, sz, 1)] transformed by [invProj], with
    x and y multiplied by [k = (1/w) / worldSize * 2^zoom] and z by [1/w]
    when [zInMeters], by [k] otherwise. *)
Definition corner (invProj : Mat4) (worldSize zoom : R) (zInMeters : bool)
    (sx sy sz : R) : Vec4 :=
  let s := V4ops.transformMat4 (V4 sx sy sz 1) invProj in
  let w := w4 s in
  let k := 1 / w / worldSize * Rpower 2 zoom in
  V4 (x4 s * k) (y4 s * k) (z4 s * (if zInMeters then 1 / w else k))
     (w * k).

(** [n = normalize(cross(c0 - c1, c2 - c1))], [d = -dot(n, c1)]. *)
Definition planeThrough (c0 c1 c2 : Vec4) : Vec4 :=
  let n :=
    V3ops.normalize
      (V3ops.cross (V3ops.sub (xyz c0) (xyz c1))
         (V3ops.sub (xyz c2) (xyz c1))) in
  V4 (x3 n) (y3 n) (z3 n) (- V3ops.dot n (xyz c1)).

End FrustumSpec.

Module AabbSpec.

(** [dot(normal, corner) + d >= 0] *)
Definition inside (plane : Vec4) (corner : Vec3) : Prop :=
  V3ops.dot (xyz plane) corner + w4 plane >= 0.

(** The corners of a box: each coordinate is that of [min] or of [max]. *)
Definition isCorner (box : Aabb.t) (p : Vec3) : Prop :=
  (x3 p = x3 (Aabb.min box) \/ x3 p = x3 (Aabb.max box))
  /\ (y3 p = y3 (Aabb.min box) \/ y3 p = y3 (Aabb.max box))
  /\ (z3 p = z3 (Aabb.min box) \/ z3 p = z3 (Aabb.max box)).

(** The plane stage decides nothing: no plane has all corners outside, and
    some plane has not all corners inside. *)
Definition undecided (box : Aabb.t) (frustum : Frustum.t) : Prop :=
  (forall plane, In plane (Frustum.planes frustum) ->
     exists p, isCorner box p /\ inside plane p)
  /\ (exists plane, In plane (Frustum.planes frustum)
       /\ exists p, isCorner box p /\ ~ inside plane p).

(** The frustum corner coordinates on an axis, each minus the box's
    [min] on that axis. *)
Definition projections (box : Aabb.t) (frustum : Frustum.t) (axis : nat)
  : list R :=
  map (fun p => vget4 p axis - vget (Aabb.min box) axis)
    (Frustum.points frustum).

Definition least (l : list R) : R :=
  match l with
  | [] => 0
  | x :: l' => fold_right Rmin x l'
  end.

Definition greatest (l : list R) : R :=
  match l with
  | [] => 0
  | x :: l' => fold_right Rmax x l'
  end.

(** Two closed intervals overlap when they share a point. *)
Definition overlap (lo hi lo' hi' : R) : Prop :=
  exists x, lo <= x <= hi /\ lo' <= x <= hi'.

(** [[projMin, projMax]] overlaps [[0, max - min]] on the axis. *)
Definition overlapOn (box : Aabb.t) (frustum : Frustum.t) (axis : nat)
  : Prop :=
  overlap (least (projections box frustum axis))
    (greatest (projections box frustum axis))
    0 (vget (Aabb.max box) axis - vget (Aabb.min box) axis).

(** Every projected coordinate is a finite double. *)
Definition inRange (box : Aabb.t) (frustum : Frustum.t) : Prop :=
  forall p axis,
    In p (Frustum.points frustum) -> (axis < 3)%nat ->
    - MAX_VALUE <= vget4 p axis - vget (Aabb.min box) axis <= MAX_VALUE.

(** The (x, y) rectangle of a box. *)
Definition inRect (box : Aabb.t) (x y : R) : Prop :=
  x3 (Aabb.min box) <= x <= x3 (Aabb.max box)
  /\ y3 (Aabb.min box) <= y <= y3 (Aabb.max box).

(** Componentwise [min <= max]. *)
Definition ordered (min_ max_ : Vec3) : Prop :=
  x3 min_ <= x3 max_ /\ y3 min_ <= y3 max_ /\ z3 min_ <= z3 max_.

End AabbSpec.

(** ** A frustum to try the statements on: the cube [-1, 1]^3 *)

Definition cubeFrustum : Frustum.t :=
  Frustum.new
    Frustum.clipSpaceCorners
    [ V4 0 0 1 1;      (* near:   z >= -1 *)
      V4 0 0 (-1) 1;   (* far:    z <= 1 *)
      V4 1 0 0 1;      (* left:   x >= -1 *)
      V4 (-1) 0 0 1;   (* right:  x <= 1 *)
      V4 0 1 0 1;      (* bottom: y >= -1 *)
      V4 0 (-1) 0 1    (* top:    y <= 1 *) ].

(** A single half-space [x >= 0] with one corner far out on the x axis. *)
Definition farFrustum : Frustum.t :=
  Frustum.new [V4 10 0 0 1] [V4 1 0 0 0].

(** ** Further quantities the later statements name *)

(** A point of a plane: [dot(n, p) + d = 0]. *)
Definition onPlane (plane c : Vec4) : Prop :=
  V3ops.dot (xyz plane) (xyz c) + w4 plane = 0.

(** The plane with normal and offset negated. *)
Definition flipped (plane : Vec4) : Vec4 :=
  V4 (- x4 plane) (- y4 plane) (- z4 plane) (- w4 plane).

(** A point within a box, on all three axes. *)
Definition inBox (box : Aabb.t) (p : Vec3) : Prop :=
  x3 (Aabb.min box) <= x3 p <= x3 (Aabb.max box)
  /\ y3 (Aabb.min box) <= y3 p <= y3 (Aabb.max box)
  /\ z3 (Aabb.min box) <= z3 p <= z3 (Aabb.max box).

(** The index in 0..3 that [quadrant] treats [index] as. *)
Definition quadrantOf (index : Z) : Z :=
  ((if Z.eqb (Z.rem index 2) 0 then 0 else 1)
   + (if Z.ltb index 2 then 0 else 2))%Z.

(** The identity matrix. *)
Definition identity : Mat4 :=
  M4 1 0 0 0
     0 1 0 0
     0 0 1 0
     0 0 0 1.

(** A box within the cube [-1, 1]^3, and a box that misses it. *)
Definition withinCube (box : Aabb.t) : Prop :=
  (-1 <= x3 (Aabb.min box) /\ x3 (Aabb.max box) <= 1)
  /\ (-1 <= y3 (Aabb.min box) /\ y3 (Aabb.max box) <= 1)
  /\ (-1 <= z3 (Aabb.min box) /\ z3 (Aabb.max box) <= 1).

Definition missesCube (box : Aabb.t) : Prop :=
  (x3 (Aabb.max box) < -1 \/ 1 < x3 (Aabb.min box))
  \/ (y3 (Aabb.max box) < -1 \/ 1 < y3 (Aabb.min box))
  \/ (z3 (Aabb.max box) < -1 \/ 1 < z3 (Aabb.min box)).

(** ** The miss of a sphere, in the words of the statement *)

Module MissSpec.

(** The projection of [u] onto [dir], as the parameter [t] of the point
    [t * dir] of the line of [dir] that is nearest to [u]. *)
Definition projection (u dir : Vec3) : R :=
  V3ops.dot u dir / V3ops.dot dir dir.

(** With [t = max(projection of -centerToP onto dir, 0)],
    [pointOnRay = pos + t * dir] and [v = (center - pointOnRay)] scaled by
    [1 - r / |center - pointOnRay|]:  [pointOnRay + v - center]. *)
Definition closest (vpos vdir vc : Vec3) (r : R) : Vec3 :=
  let t := Rmax (projection (V3ops.sub vc vpos) vdir) 0 in
  let pointOnRay := V3ops.add vpos (V3ops.scale vdir t) in
  let toCenter := V3ops.sub vc pointOnRay in
  let v := V3ops.scale toCenter (1 - r / V3ops.length toCenter) in
  V3ops.sub (V3ops.add pointOnRay v) vc.

End MissSpec.

(** ** The frustum of a projection, in the words of the statement

    Written with the matrix as a table of rows and columns and vectors by
    their coordinates, without the routines of gl-matrix. *)

Module ClipSpec.

(** The 16 numbers of a matrix in the order they are stored. *)
Definition stored (m : Mat4) (i : nat) : R :=
  match i with
  | 0 => m0 m | 1 => m1 m | 2 => m2 m | 3 => m3 m
  | 4 => m4 m | 5 => m5 m | 6 => m6 m | 7 => m7 m
  | 8 => m8 m | 9 => m9 m | 10 => m10 m | 11 => m11 m
  | 12 => m12 m | 13 => m13 m | 14 => m14 m | _ => m15 m
  end%nat.

(** The entry of row [row] and column [col]: columns are stored one after
    the other. *)
Definition entry (m : Mat4) (row col : nat) : R :=
  stored m (4 * col + row).

(** The homogeneous transform: the matrix times the column vector. *)
Definition transform (m : Mat4) (v : Vec4) : Vec4 :=
  let row i :=
    entry m i 0 * x4 v + entry m i 1 * y4 v + entry m i 2 * z4 v
    + entry m i 3 * w4 v in
  V4 (row 0%nat) (row 1%nat) (row 2%nat) (row 3%nat).

(** A coordinate of a clip-space cube corner: 1 or -1. *)
Definition sign (s : R) : Prop := s = 1 \/ s = -1.

(** The corner [(sx, sy, sz, 1)] transformed by [invProj], with x and y
    multiplied by [k = (1/w) / worldSize * 2^zoom] and z by [1/w] when
    [zInMeters], by [k] otherwise. *)
Definition corner (invProj : Mat4) (worldSize zoom : R) (zInMeters : bool)
    (sx sy sz : R) : Vec4 :=
  let s := transform invProj (V4 sx sy sz 1) in
  let w := w4 s in
  let k := 1 / w / worldSize * Rpower 2 zoom in
  V4 (k * x4 s) (k * y4 s) ((if zInMeters then 1 / w else k) * z4 s)
     (k * w).

(** [p - q] on the first three coordinates. *)
Definition diff (p q : Vec4) : Vec3 :=
  V3 (x4 p - x4 q) (y4 p - y4 q) (z4 p - z4 q).

(** The cross product: coordinate [i] is
    [a(i+1) * b(i+2) - a(i+2) * b(i+1)], indices taken modulo 3. *)
Definition crossProduct (a b : Vec3) : Vec3 :=
  let coordinate i :=
    vget a ((i + 1) mod 3) * vget b ((i + 2) mod 3)
    - vget a ((i + 2) mod 3) * vget b ((i + 1) mod 3) in
  V3 (coordinate 0%nat) (coordinate 1%nat) (coordinate 2%nat).

Definition inner (a b : Vec3) : R :=
  vget a 0 * vget b 0 + vget a 1 * vget b 1 + vget a 2 * vget b 2.

Definition norm (a : Vec3) : R := sqrt (inner a a).

(** [v / |v|]; the zero vector, which has no direction, stays as it is. *)
Definition unit (v : Vec3) : Vec3 :=
  if Req_dec_T (norm v) 0 then v
  else V3 (x3 v / norm v) (y3 v / norm v) (z3 v / norm v).

(** The plane of three corners:
    [n = normalize(cross(c0 - c1, c2 - c1))], [d = -dot(n, c1)]. *)
Definition plane (c0 c1 c2 : Vec4) : Vec4 :=
  let n := unit (crossProduct (diff c0 c1) (diff c2 c1)) in
  V4 (x3 n) (y3 n) (z3 n) (- inner n (V3 (x4 c1) (y4 c1) (z4 c1))).

End ClipSpec.

(** A projection to try the statements on: it leaves x, y and z as they
    are and gives [w = z / 2 + 1], so that the near corners have [w = 1/2]
    and the far corners [w = 3/2]. *)
Definition perspective : Mat4 :=
  M4 1 0 0 0
     0 1 0 0
     0 0 1 (1 / 2)
     0 0 0 1.

(** ** The boolean comparisons decide the order of [R] *)

Lemma Rltb_true (x y : R) : Rltb x y = true <-> x < y.
Proof. unfold Rltb. destruct (Rlt_dec x y); split; intros; easy. Qed.

Lemma Rltb_false (x y : R) : Rltb x y = false <-> y <= x.
Proof.
  unfold Rltb. destruct (Rlt_dec x y); split; intros; try easy; lra.
Qed.

Lemma Rleb_true (x y : R) : Rleb x y = true <-> x <= y.
Proof. unfold Rleb. destruct (Rle_dec x y); split; intros; easy. Qed.

Lemma Rleb_false (x y : R) : Rleb x y = false <-> y < x.
Proof.
  unfold Rleb. destruct (Rle_dec x y); split; intros; try easy; lra.
Qed.

Lemma Reqb_true (x y : R) : Reqb x y = true <-> x = y.
Proof. unfold Reqb. destruct (Req_dec_T x y); split; intros; easy. Qed.

Lemma Reqb_false (x y : R) : Reqb x y = false <-> x <> y.
Proof. unfold Reqb. destruct (Req_dec_T x y); split; intros; easy. Qed.

Lemma near_refl (a : R) : V3ops.near a a = true.
Proof.
  unfold V3ops.near, EPSILON. apply Rleb_true.
  replace (a - a) with 0 by ring. rewrite Rabs_R0.
  pose proof (Rmax_l 1 (Rmax (Rabs a) (Rabs a))). lra.
Qed.

Lemma equals_refl (v : Vec3) : V3ops.equals v v = true.
Proof. unfold V3ops.equals. rewrite !near_refl. reflexivity. Qed.

(** Two vectors that [equals] tells apart are different. *)
Lemma equals_false_neq (a b : Vec3) : V3ops.equals a b = false -> a <> b.
Proof. intros H E. subst b. rewrite equals_refl in H. discriminate. Qed.

(** ** What the caller sees of a store after a call *)

Lemma lookup_extended (h tmps : heap) (l : loc) :
  (l < length h)%nat -> (h ++ tmps) !! l = h !! l.
Proof. intros Hl. apply lookup_app_l. exact Hl. Qed.

Lemma lookup_written (h tmps : heap) (out : loc) (v : Vec3) :
  (out < length h)%nat -> (<[out := v]> h ++ tmps) !! out = Some v.
Proof.
  intros Hl. rewrite lookup_app_l by (rewrite length_insert; exact Hl).
  apply list_lookup_insert_eq. exact Hl.
Qed.

Lemma lookup_not_written (h tmps : heap) (out l : loc) (v : Vec3) :
  (l < length h)%nat -> l <> out -> (<[out := v]> h ++ tmps) !! l = h !! l.
Proof.
  intros Hl Hne. rewrite lookup_app_l by (rewrite length_insert; exact Hl).
  apply list_lookup_insert_ne. congruence.
Qed.

(** ** Running the store monad on a store extended by temporaries *)

Section StoreSteps.
Context (h tmps : heap).

Lemma load_old {B} (l : loc) (v : Vec3) (k : Vec3 -> M B) :
  h !! l = Some v -> bind (load l) k (h ++ tmps) = k v (h ++ tmps).
Proof.
  intros Hl. unfold bind, load.
  rewrite (lookup_app_l_Some h tmps l v Hl). reflexivity.
Qed.

Lemma load_tmp {B} (i : nat) (v : Vec3) (k : Vec3 -> M B) :
  tmps !! i = Some v ->
  bind (load (length h + i)%nat) k (h ++ tmps) = k v (h ++ tmps).
Proof.
  intros Hi. unfold bind, load.
  rewrite lookup_app_r by lia.
  replace (length h + i - length h)%nat with i by lia.
  rewrite Hi. reflexivity.
Qed.

Lemma store_old {B} (l : loc) (v : Vec3) (k : unit -> M B) :
  (l < length h)%nat ->
  bind (store l v) k (h ++ tmps) = k tt (<[l := v]> h ++ tmps).
Proof.
  intros Hl. unfold bind, store.
  destruct (lookup_lt_is_Some_2 h l Hl) as [w Hw].
  rewrite (lookup_app_l_Some h tmps l w Hw).
  rewrite insert_app_l by exact Hl. reflexivity.
Qed.

Lemma store_tmp {B} (i : nat) (v : Vec3) (k : unit -> M B) :
  (i < length tmps)%nat ->
  bind (store (length h + i)%nat v) k (h ++ tmps)
  = k tt (h ++ <[i := v]> tmps).
Proof.
  intros Hi. unfold bind, store.
  destruct (lookup_lt_is_Some_2 tmps i Hi) as [w Hw].
  rewrite lookup_app_r by lia.
  replace (length h + i - length h)%nat with i by lia.
  rewrite Hw. rewrite insert_app_r. reflexivity.
Qed.

Lemma alloc_tmp {B} (v : Vec3) (k : loc -> M B) :
  bind (alloc v) k (h ++ tmps)
  = k (length h + length tmps)%nat (h ++ (tmps ++ [v])).
Proof.
  unfold bind, alloc. rewrite length_app, <- app_assoc. reflexivity.
Qed.

End StoreSteps.

Lemma bind_ret {A B} (a : A) (k : A -> M B) (h : heap) :
  bind (ret a) k h = k a h.
Proof. reflexivity. Qed.

Lemma bind_bind {A B C} (c : M A) (k : A -> M B) (k' : B -> M C) (h : heap) :
  bind (bind c k) k' h = bind c (fun a => bind (k a) k') h.
Proof. unfold bind. destruct (c h); reflexivity. Qed.

(** One step of a method body on the store [h ++ tmps]. *)
Ltac store_step h :=
  first
    [ rewrite bind_bind
    | rewrite bind_ret
    | erewrite (load_old h) by eassumption
    | erewrite (load_tmp h) by reflexivity
    | rewrite (store_old h) by assumption
    | rewrite (store_tmp h) by (simpl; lia)
    | rewrite (alloc_tmp h) ];
  cbn [length app Nat.add].

Ltac unfold_glmatrix :=
  unfold vec3.add, vec3.sub, vec3.binop, vec3.scale, vec3.scaleAndAdd,
    vec3.copy, vec3.create, vec3.dot, vec3.squaredLength, vec3.length,
    vec3.equals, fresh.

Section RayRuns.
Context (h : heap) (this : Ray.t) (vpos vdir : Vec3).
Hypothesis Hpos : h !! Ray.pos this = Some vpos.
Hypothesis Hdir : h !! Ray.dir this = Some vdir.

Lemma intersectsPlane_run (pt normal out : loc) (vpt vn : Vec3) :
  h !! pt = Some vpt -> h !! normal = Some vn -> (out < length h)%nat ->
  let D := V3ops.dot vn vdir in
  let t := V3ops.dot (V3ops.sub vpt vpos) vn / D in
  let parallel := Rltb (Rabs D) (1 / 1000000) in
  exists tmps,
    Ray.intersectsPlane this pt normal out h =
    Returned (negb parallel)
      ((if parallel then h
        else <[out := V3ops.scaleAndAdd vpos vdir t]> h) ++ tmps).
Proof.
  intros Hpt Hn Hout D t parallel.
  destruct parallel eqn:Epar; subst parallel; eexists;
    (transitivity (Ray.intersectsPlane this pt normal out (h ++ []));
     [ rewrite app_nil_r; reflexivity | ]);
    unfold Ray.intersectsPlane; unfold_glmatrix;
    repeat store_step h; fold D; rewrite Epar;
    repeat store_step h; reflexivity.
Qed.

(** The quantities [closestPointOnSphere] computes from the arrays. *)
Section Sphere.
Context (center out : loc) (vc : Vec3) (r : R).
Hypothesis Hc : h !! center = Some vc.
Hypothesis Hout : (out < length h)%nat.

Let centerToP := V3ops.sub vpos vc.
Let a := V3ops.dot vdir vdir.
Let b := 2 * V3ops.dot centerToP vdir.
Let c := V3ops.dot centerToP centerToP - r * r.
Let d := b * b - 4 * a * c.

Ltac run_sphere :=
  eexists;
  (transitivity (Ray.closestPointOnSphere this center r out (h ++ []));
   [ rewrite app_nil_r; reflexivity | ]);
  unfold Ray.closestPointOnSphere; unfold_glmatrix;
  repeat store_step h.

Lemma closest_asserts :
  Rgtb (V3ops.squaredLength vdir) 0 && Rgeb r 0 = false ->
  Ray.closestPointOnSphere this center r out h = Thrown AssertionError.
Proof.
  intros Hpre.
  transitivity (Ray.closestPointOnSphere this center r out (h ++ []));
    [ rewrite app_nil_r; reflexivity | ].
  unfold Ray.closestPointOnSphere; unfold_glmatrix.
  repeat store_step h. rewrite Hpre. reflexivity.
Qed.

Hypothesis Hpre : Rgtb (V3ops.squaredLength vdir) 0 && Rgeb r 0 = true.

Lemma closest_degenerate :
  V3ops.equals vpos vc || Reqb r 0 = true ->
  Ray.closestPointOnSphere this center r out h
  = Returned false (h ++ [V3 0 0 0]).
Proof.
  intros Hdeg.
  transitivity (Ray.closestPointOnSphere this center r out (h ++ []));
    [ rewrite app_nil_r; reflexivity | ].
  unfold Ray.closestPointOnSphere; unfold_glmatrix.
  repeat store_step h. rewrite Hpre. unfold assert.
  repeat store_step h. rewrite Hdeg.
  repeat store_step h. reflexivity.
Qed.

Hypothesis Hnondeg : V3ops.equals vpos vc || Reqb r 0 = false.

Lemma closest_miss :
  Rltb d 0 = true ->
  let t := Rmax (V3ops.dot (V3ops.scale centerToP (-1)) vdir) 0 in
  let pointOnRay := V3ops.add vpos (V3ops.scale vdir t) in
  let pointToGlobe := V3ops.sub vc pointOnRay in
  let v := V3ops.scale pointToGlobe (1 - r / V3ops.length pointToGlobe) in
  exists tmps,
    Ray.closestPointOnSphere this center r out h =
    Returned false
      (<[out := V3ops.sub (V3ops.add pointOnRay v) vc]> h ++ tmps).
Proof.
  intros Hd t pointOnRay pointToGlobe v. run_sphere.
  rewrite Hpre. unfold assert.
  repeat store_step h. rewrite Hnondeg.
  repeat store_step h.
  fold centerToP. fold b c. fold a. fold d. rewrite Hd.
  repeat store_step h. reflexivity.
Qed.

Hypothesis Hd : Rltb d 0 = false.

Let t := (- b - sqrt d) / (2 * a).

Lemma closest_asserts_a :
  Rgtb a 0 = true.
Proof.
  apply andb_true_iff in Hpre. exact (proj1 Hpre).
Qed.

Lemma closest_behind :
  Rltb t 0 = true ->
  exists tmps,
    Ray.closestPointOnSphere this center r out h =
    Returned false
      (<[out := V3ops.scale centerToP (r / V3ops.length centerToP)]> h
       ++ tmps).
Proof.
  intros Ht. run_sphere.
  rewrite Hpre. unfold assert.
  repeat store_step h. rewrite Hnondeg.
  repeat store_step h.
  fold centerToP. fold b c. fold a. fold d. rewrite Hd.
  rewrite closest_asserts_a. fold t. rewrite Ht.
  repeat store_step h. reflexivity.
Qed.

Lemma closest_hit :
  Rltb t 0 = false ->
  exists tmps,
    Ray.closestPointOnSphere this center r out h =
    Returned true
      (<[out := V3ops.sub (V3ops.add vpos (V3ops.scale vdir t)) vc]> h
       ++ tmps).
Proof.
  intros Ht. run_sphere.
  rewrite Hpre. unfold assert.
  repeat store_step h. rewrite Hnondeg.
  repeat store_step h.
  fold centerToP. fold b c. fold a. fold d. rewrite Hd.
  rewrite closest_asserts_a. fold t. rewrite Ht.
  repeat store_step h. reflexivity.
Qed.

End Sphere.

End RayRuns.

(** ** Ray.intersectsPlane *)

(** C5.  With [D = dot(normal, dir)]: when [|D| < 1e-6] the call returns
    false and every array of the caller, [out] included, is as it was;
    otherwise it returns true and [out] holds [pos + t * dir] with
    [t = dot(pt - pos, normal) / D], whatever the sign of [t], and no other
    array of the caller has changed. *)
Theorem intersectsPlane_spec (h : heap) (this : Ray.t) (pt normal out : loc)
    (vpos vdir vpt vn : Vec3) :
  h !! Ray.pos this = Some vpos -> h !! Ray.dir this = Some vdir ->
  h !! pt = Some vpt -> h !! normal = Some vn -> (out < length h)%nat ->
  let D := V3ops.dot vn vdir in
  let t := V3ops.dot (V3ops.sub vpt vpos) vn / D in
  (Rabs D < 1 / 1000000 ->
   exists h', Ray.intersectsPlane this pt normal out h = Returned false h'
     /\ forall l, (l < length h)%nat -> h' !! l = h !! l)
  /\
  (~ Rabs D < 1 / 1000000 ->
   exists h', Ray.intersectsPlane this pt normal out h = Returned true h'
     /\ h' !! out = Some (V3ops.add vpos (V3ops.scale vdir t))
     /\ forall l, (l < length h)%nat -> l <> out -> h' !! l = h !! l).
Proof.
  intros Hpos Hdir Hpt Hn Hout D t.
  destruct (intersectsPlane_run h this vpos vdir Hpos Hdir pt normal out
              vpt vn Hpt Hn Hout) as [tmps Hrun].
  fold D in Hrun. fold t in Hrun.
  split; intros HD.
  - apply Rltb_true in HD. rewrite HD in Hrun. simpl in Hrun.
    eexists. split; [exact Hrun |].
    intros l Hl. apply lookup_extended. exact Hl.
  - assert (Rltb (Rabs D) (1 / 1000000) = false) as HD'
        by (apply Rltb_false; lra).
    rewrite HD' in Hrun. simpl in Hrun.
    eexists. split; [exact Hrun |]. split.
    + apply lookup_written. exact Hout.
    + intros l Hl Hne. apply lookup_not_written; assumption.
Qed.

Lemma intersectsPlane_spec_witness :
  (exists h',
     Ray.intersectsPlane (Ray.new 0 1) 2 3 4
       [V3 0 0 1; V3 1 0 0; V3 0 0 0; V3 0 0 1; V3 7 7 7]
     = Returned false h'
     /\ h' !! 4%nat = Some (V3 7 7 7))
  /\
  (exists h',
     Ray.intersectsPlane (Ray.new 0 1) 2 3 4
       [V3 0 0 1; V3 0 0 (-1); V3 0 0 0; V3 0 0 1; V3 7 7 7]
     = Returned true h'
     /\ h' !! 4%nat = Some (V3 0 0 0)).
Proof.
  split.
  - destruct (intersectsPlane_spec
                [V3 0 0 1; V3 1 0 0; V3 0 0 0; V3 0 0 1; V3 7 7 7]
                (Ray.new 0 1) 2 3 4 _ _ _ _
                eq_refl eq_refl eq_refl eq_refl ltac:(simpl; lia))
      as [Hpar _].
    destruct Hpar as [h' [Hrun Hsame]].
    + unfold V3ops.dot; simpl.
      unfold Rabs. destruct (Rcase_abs _); lra.
    + exists h'. split; [exact Hrun |].
      rewrite Hsame by (simpl; lia). reflexivity.
  - destruct (intersectsPlane_spec
                [V3 0 0 1; V3 0 0 (-1); V3 0 0 0; V3 0 0 1; V3 7 7 7]
                (Ray.new 0 1) 2 3 4 _ _ _ _
                eq_refl eq_refl eq_refl eq_refl ltac:(simpl; lia))
      as [_ Hhit].
    destruct Hhit as [h' [Hrun [Hout _]]].
    + unfold V3ops.dot; simpl.
      unfold Rabs. destruct (Rcase_abs _); lra.
    + exists h'. split; [exact Hrun |].
      rewrite Hout. unfold V3ops.add, V3ops.scale, V3ops.sub, V3ops.dot.
      simpl. f_equal. f_equal; field.
Defined.

(** ** Ray.closestPointOnSphere *)

Lemma precondition_holds (vdir : Vec3) (r : R) :
  V3ops.squaredLength vdir > 0 -> r >= 0 ->
  Rgtb (V3ops.squaredLength vdir) 0 && Rgeb r 0 = true.
Proof.
  intros Hs Hr. apply andb_true_iff. split.
  - apply Rltb_true. lra.
  - apply Rleb_true. lra.
Qed.

Lemma not_degenerate (vpos vc : Vec3) (r : R) :
  V3ops.equals vpos vc = false -> r <> 0 ->
  V3ops.equals vpos vc || Reqb r 0 = false.
Proof.
  intros He Hr. rewrite He. simpl. apply Reqb_false. exact Hr.
Qed.

(** C1, as the code has it.  When the precondition holds and the origin is
    the centre or the radius is 0, the call returns false, and what it leaves
    in every array of the caller, [out] included, is what was there before:
    the zero vector goes to a new array that only the local name [out]
    refers to. *)
Theorem closestPointOnSphere_degenerate_keeps_out (h : heap) (this : Ray.t)
    (center : loc) (r : R) (out : loc) (vpos vdir vc : Vec3) :
  h !! Ray.pos this = Some vpos -> h !! Ray.dir this = Some vdir ->
  h !! center = Some vc -> (out < length h)%nat ->
  V3ops.squaredLength vdir > 0 -> r >= 0 ->
  vpos = vc \/ r = 0 ->
  exists h',
    Ray.closestPointOnSphere this center r out h = Returned false h'
    /\ h' !! out = h !! out
    /\ forall l, (l < length h)%nat -> h' !! l = h !! l.
Proof.
  intros Hpos Hdir Hc Hout Hs Hr Hdeg.
  exists (h ++ [V3 0 0 0]). split; [| split].
  - apply (closest_degenerate h this vpos vdir Hpos Hdir center out vc r Hc).
    + apply precondition_holds; assumption.
    + apply orb_true_iff. destruct Hdeg as [E | E].
      * left. subst vc. apply equals_refl.
      * right. apply Reqb_true. exact E.
  - apply lookup_extended. exact Hout.
  - intros l Hl. apply lookup_extended. exact Hl.
Qed.

Lemma closestPointOnSphere_degenerate_keeps_out_witness :
  exists h',
    Ray.closestPointOnSphere (Ray.new 0 1) 2 1 3
      [V3 1 2 3; V3 0 0 1; V3 1 2 3; V3 7 8 9]
    = Returned false h'
    /\ h' !! 3%nat = Some (V3 7 8 9).
Proof.
  destruct (closestPointOnSphere_degenerate_keeps_out
              [V3 1 2 3; V3 0 0 1; V3 1 2 3; V3 7 8 9]
              (Ray.new 0 1) 2 1 3 _ _ _
              eq_refl eq_refl eq_refl ltac:(simpl; lia))
    as [h' [Hrun [Hout _]]].
  - unfold V3ops.squaredLength; simpl. lra.
  - lra.
  - left. reflexivity.
  - exists h'. split; [exact Hrun | exact Hout].
Defined.

(** *** The algebra of the three branches *)

Lemma squaredLength_nonneg (v : Vec3) : 0 <= V3ops.squaredLength v.
Proof. unfold V3ops.squaredLength. nra. Qed.

Lemma squaredLength_sub_pos (a b : Vec3) :
  a <> b -> 0 < V3ops.squaredLength (V3ops.sub a b).
Proof.
  intros Hne. destruct a as [ax ay az], b as [bx by_ bz].
  unfold V3ops.squaredLength, V3ops.sub; simpl.
  destruct (Rle_lt_dec ((ax - bx) * (ax - bx) + (ay - by_) * (ay - by_)
                        + (az - bz) * (az - bz)) 0) as [Hle | Hlt];
    [| exact Hlt].
  exfalso. apply Hne.
  pose proof (Rle_0_sqr (ax - bx)) as Hx.
  pose proof (Rle_0_sqr (ay - by_)) as Hy.
  pose proof (Rle_0_sqr (az - bz)) as Hz.
  unfold Rsqr in Hx, Hy, Hz.
  assert (ax - bx = 0) by (apply Rsqr_0_uniq; unfold Rsqr; lra).
  assert (ay - by_ = 0) by (apply Rsqr_0_uniq; unfold Rsqr; lra).
  assert (az - bz = 0) by (apply Rsqr_0_uniq; unfold Rsqr; lra).
  f_equal; lra.
Qed.

Lemma length_of_square (v : Vec3) (r : R) :
  0 <= r -> V3ops.squaredLength v = r * r -> V3ops.length v = r.
Proof.
  intros Hr Hv. unfold V3ops.length. rewrite Hv. apply sqrt_square. exact Hr.
Qed.

Lemma length_sq (v : Vec3) :
  V3ops.length v * V3ops.length v = V3ops.squaredLength v.
Proof. unfold V3ops.length. apply sqrt_sqrt. apply squaredLength_nonneg. Qed.

Lemma length_pos (v : Vec3) :
  0 < V3ops.squaredLength v -> 0 < V3ops.length v.
Proof. intros Hv. unfold V3ops.length. apply sqrt_lt_R0. exact Hv. Qed.

(** A vector rescaled by [r / length] has length [r]. *)
Lemma rescaled_length (u : Vec3) (r : R) :
  0 <= r -> 0 < V3ops.squaredLength u ->
  V3ops.length (V3ops.scale u (r / V3ops.length u)) = r.
Proof.
  intros Hr Hu. apply length_of_square; [exact Hr |].
  pose proof (length_pos u Hu) as HL. pose proof (length_sq u) as HLL.
  set (L := V3ops.length u) in *.
  transitivity (V3ops.squaredLength u * (r / L) * (r / L)).
  - unfold V3ops.squaredLength, V3ops.scale; simpl. ring.
  - rewrite <- HLL. field. lra.
Qed.

(** The miss branch: what is written is the vector from the centre to the
    point on the ray, rescaled to length [r]. *)
Lemma miss_output (p u c : Vec3) (k : R) :
  u = V3ops.sub c p ->
  V3ops.sub (V3ops.add p (V3ops.scale u (1 - k))) c
  = V3ops.scale (V3ops.scale u (-1)) k.
Proof.
  intros ->. unfold V3ops.sub, V3ops.add, V3ops.scale; simpl.
  f_equal; ring.
Qed.

Lemma squaredLength_neg (u : Vec3) :
  V3ops.squaredLength (V3ops.scale u (-1)) = V3ops.squaredLength u.
Proof. unfold V3ops.squaredLength, V3ops.scale; simpl. ring. Qed.

Lemma length_neg (u : Vec3) :
  V3ops.length (V3ops.scale u (-1)) = V3ops.length u.
Proof. unfold V3ops.length. rewrite squaredLength_neg. reflexivity. Qed.

Section Quadratic.
Context (vpos vdir vc : Vec3) (r : R).

Let centerToP := V3ops.sub vpos vc.
Let a := V3ops.dot vdir vdir.
Let b := 2 * V3ops.dot centerToP vdir.
Let c := V3ops.dot centerToP centerToP - r * r.
Let d := b * b - 4 * a * c.

(** A point of the ray at parameter [t], seen from the centre, has squared
    length [a t^2 + b t + c + r^2]. *)
Lemma point_on_ray_sq (t : R) :
  V3ops.squaredLength
    (V3ops.sub (V3ops.add vpos (V3ops.scale vdir t)) vc)
  = a * t * t + b * t + c + r * r.
Proof.
  unfold a, b, c, centerToP, V3ops.squaredLength, V3ops.dot, V3ops.sub,
    V3ops.add, V3ops.scale; simpl. ring.
Qed.

(** The nearer root is a root. *)
Lemma nearer_root :
  0 < a -> 0 <= d ->
  let t := (- b - sqrt d) / (2 * a) in
  a * t * t + b * t + c = 0.
Proof.
  intros Ha Hd t.
  pose proof (sqrt_sqrt d Hd) as Hs.
  set (s := sqrt d) in *.
  assert (a * t * t + b * t + c = (s * s - d) / (4 * a)) as ->.
  { unfold t, d. field. lra. }
  rewrite Hs. field. lra.
Qed.

(** A ray that misses the sphere stays away from the centre. *)
Lemma miss_off_center (t : R) :
  d < 0 ->
  0 < V3ops.squaredLength
        (V3ops.sub vc (V3ops.add vpos (V3ops.scale vdir t))).
Proof.
  intros Hd.
  assert (V3ops.squaredLength
            (V3ops.sub vc (V3ops.add vpos (V3ops.scale vdir t)))
          = a * t * t + b * t + c + r * r) as ->.
  { rewrite <- point_on_ray_sq.
    unfold V3ops.squaredLength, V3ops.sub, V3ops.add, V3ops.scale; simpl.
    ring. }
  assert (0 <= a) as Ha.
  { unfold a, V3ops.dot. nra. }
  unfold d in Hd.
  pose proof (Rle_0_sqr b) as Hb. unfold Rsqr in Hb.
  pose proof (Rle_0_sqr (2 * a * t + b)) as Hq. unfold Rsqr in Hq.
  pose proof (Rle_0_sqr r) as Hrr. unfold Rsqr in Hrr.
  destruct Ha as [Ha | Ha]; [| rewrite <- Ha in Hd; lra].
  set (Q := a * t * t + b * t + c).
  (* 4a (a t^2 + b t + c) = (2 a t + b)^2 - d *)
  assert (4 * a * Q
          = (2 * a * t + b) * (2 * a * t + b) - (b * b - 4 * a * c))
    as Hsq by (unfold Q; ring).
  assert (0 < 4 * a * Q) as H4 by lra.
  assert (0 < Q).
  { destruct (Rle_lt_dec Q 0) as [Hle | Hlt]; [| exact Hlt].
    exfalso. assert (4 * a * Q <= 0) by nra. lra. }
  lra.
Qed.

End Quadratic.

(** For a direction of length 1 the dot product the code takes is the
    projection, and what the miss branch computes is the point the
    statement describes. *)
Lemma unit_dot_is_projection (vpos vdir vc : Vec3) :
  V3ops.squaredLength vdir = 1 ->
  V3ops.dot (V3ops.scale (V3ops.sub vpos vc) (-1)) vdir
  = MissSpec.projection (V3ops.sub vc vpos) vdir.
Proof.
  intros Hunit. unfold MissSpec.projection.
  change (V3ops.dot vdir vdir) with (V3ops.squaredLength vdir).
  rewrite Hunit. unfold V3ops.dot, V3ops.scale, V3ops.sub; simpl. field.
Qed.

Lemma unit_miss_is_closest (vpos vdir vc : Vec3) (r : R) :
  V3ops.squaredLength vdir = 1 ->
  Sphere.missPoint vpos vdir vc r = MissSpec.closest vpos vdir vc r.
Proof.
  intros Hunit. unfold Sphere.missPoint, MissSpec.closest, Sphere.centerToP.
  rewrite (unit_dot_is_projection vpos vdir vc Hunit). reflexivity.
Qed.

(** C7, amended.  Take a call with a direction of length 1, [r > 0] and
    [vec3.equals(pos, center)] false, whose discriminant is negative.  With
    [t = max(projection of -centerToP onto dir, 0)],
    [pointOnRay = pos + t * dir] and [v = (center - pointOnRay)] scaled by
    [1 - r / |center - pointOnRay|], the call returns false, [out] holds
    [pointOnRay + v - center], and no other array of the caller has
    changed. *)
Theorem closestPointOnSphere_miss (h : heap) (this : Ray.t)
    (center : loc) (r : R) (out : loc) (vpos vdir vc : Vec3) :
  h !! Ray.pos this = Some vpos -> h !! Ray.dir this = Some vdir ->
  h !! center = Some vc -> (out < length h)%nat ->
  V3ops.squaredLength vdir = 1 -> r > 0 ->
  V3ops.equals vpos vc = false ->
  Sphere.discriminant vpos vdir vc r < 0 ->
  exists h',
    Ray.closestPointOnSphere this center r out h = Returned false h'
    /\ h' !! out = Some (MissSpec.closest vpos vdir vc r)
    /\ forall l, (l < length h)%nat -> l <> out -> h' !! l = h !! l.
Proof.
  intros Hpos Hdir Hc Hout Hunit Hr Hne Hd.
  destruct (closest_miss h this vpos vdir Hpos Hdir center out vc r Hc Hout)
    as [tmps Hrun].
  - apply precondition_holds; lra.
  - apply not_degenerate; [exact Hne | lra].
  - apply Rltb_true. exact Hd.
  - eexists. split; [exact Hrun |]. split.
    + rewrite lookup_written by exact Hout. f_equal.
      apply (unit_miss_is_closest vpos vdir vc r Hunit).
    + intros l Hl Hnl. apply lookup_not_written; assumption.
Qed.

(** Deciding the comparisons of the code at given numbers. *)
Ltac Rdecide :=
  unfold Rltb, Rleb, Rgtb, Rgeb, Reqb, Rabs, Rmax, Rmin in *;
  repeat match goal with
         | |- context [Rcase_abs ?x] => destruct (Rcase_abs x)
         | |- context [Rle_dec ?x ?y] => destruct (Rle_dec x y)
         | |- context [Rlt_dec ?x ?y] => destruct (Rlt_dec x y)
         | |- context [Req_dec_T ?x ?y] => destruct (Req_dec_T x y)
         | H : context [Rcase_abs ?x] |- _ => destruct (Rcase_abs x)
         | H : context [Rle_dec ?x ?y] |- _ => destruct (Rle_dec x y)
         | H : context [Rlt_dec ?x ?y] |- _ => destruct (Rlt_dec x y)
         end;
  try reflexivity; try lra; try (exfalso; lra).

Ltac unfold_sphere :=
  unfold Sphere.missPoint, Sphere.nearestToOrigin, Sphere.pointAt,
    Sphere.nearerRoot, Sphere.discriminant, Sphere.c, Sphere.b, Sphere.a,
    Sphere.centerToP, V3ops.length, V3ops.squaredLength, V3ops.dot,
    V3ops.sub, V3ops.add, V3ops.scale in *;
  simpl in *.

Lemma closestPointOnSphere_miss_witness :
  exists h',
    Ray.closestPointOnSphere (Ray.new 0 1) 2 1 3
      [V3 0 0 0; V3 1 0 0; V3 3 4 0; V3 7 8 9]
    = Returned false h'
    /\ h' !! 3%nat = Some (V3 0 (-1) 0).
Proof.
  destruct (closestPointOnSphere_miss
              [V3 0 0 0; V3 1 0 0; V3 3 4 0; V3 7 8 9]
              (Ray.new 0 1) 2 1 3 _ _ _
              eq_refl eq_refl eq_refl ltac:(simpl; lia))
    as [h' [Hrun [Hout _]]].
  - unfold V3ops.squaredLength; simpl. lra.
  - lra.
  - unfold V3ops.equals, V3ops.near, EPSILON; simpl. Rdecide.
  - unfold_sphere. lra.
  - exists h'. split; [exact Hrun |]. rewrite Hout.
    unfold MissSpec.closest.
    assert (MissSpec.projection (V3ops.sub (V3 3 4 0) (V3 0 0 0)) (V3 1 0 0)
            = 3) as ->
        by (unfold MissSpec.projection, V3ops.dot, V3ops.sub; simpl; field).
    rewrite Rmax_left by lra.
    unfold_sphere.
    match goal with
    | |- context [sqrt ?e] =>
        replace (sqrt e) with 4 by (symmetry; apply sqrt_lem_1; lra)
    end.
    f_equal. f_equal; field.
Defined.

(** At this magnitude an origin a whole unit away from the centre is still
    [vec3.equals] to it. *)
Lemma far_but_equal :
  V3ops.equals (V3 2000000 0 0) (V3 2000001 0 0) = true.
Proof. unfold V3ops.equals, V3ops.near, EPSILON; simpl. Rdecide. Qed.

Lemma far_degenerate (vdir vout : Vec3) :
  V3ops.squaredLength vdir > 0 ->
  Ray.closestPointOnSphere (Ray.new 0 1) 2 (1 / 2) 3
    [V3 2000000 0 0; vdir; V3 2000001 0 0; vout]
  = Returned false
      [V3 2000000 0 0; vdir; V3 2000001 0 0; vout; V3 0 0 0].
Proof.
  intros Hs.
  apply (closest_degenerate [V3 2000000 0 0; vdir; V3 2000001 0 0; vout]
           (Ray.new 0 1) (V3 2000000 0 0) vdir
           eq_refl eq_refl 2%nat 3%nat (V3 2000001 0 0) (1 / 2) eq_refl).
  - apply precondition_holds; [exact Hs | lra].
  - rewrite far_but_equal. reflexivity.
Qed.

(** C7 as stated fails: the origin differs from the centre, the direction
    has length 1, the radius is positive, the discriminant is negative, yet
    the call takes the degenerate exit and [out] keeps what it held. *)
Lemma closestPointOnSphere_miss_counterexample :
  V3 2000000 0 0 <> V3 2000001 0 0
  /\ V3ops.squaredLength (V3 0 1 0) > 0
  /\ 1 / 2 > 0
  /\ Sphere.discriminant (V3 2000000 0 0) (V3 0 1 0) (V3 2000001 0 0) (1 / 2)
     < 0
  /\ exists h',
       Ray.closestPointOnSphere (Ray.new 0 1) 2 (1 / 2) 3
         [V3 2000000 0 0; V3 0 1 0; V3 2000001 0 0; V3 7 8 9]
       = Returned false h'
       /\ h' !! 3%nat = Some (V3 7 8 9)
       /\ MissSpec.closest (V3 2000000 0 0) (V3 0 1 0) (V3 2000001 0 0)
            (1 / 2)
          <> V3 7 8 9.
Proof.
  split; [ intros E; apply (f_equal x3) in E; simpl in E; lra |].
  split; [ unfold V3ops.squaredLength; simpl; lra |].
  split; [ lra |].
  split; [ unfold_sphere; lra |].
  eexists. split; [| split].
  - apply far_degenerate. unfold V3ops.squaredLength; simpl; lra.
  - reflexivity.
  - intros E. apply (f_equal z3) in E. revert E.
    unfold MissSpec.closest. unfold_sphere. lra.
Qed.

(** C6, amended.  Take a call whose precondition holds, with [r > 0] and
    [vec3.equals(pos, center)] false, and let [t = (-b - sqrt(d)) / (2a)] be
    the nearer root.  If [d >= 0] and [t < 0] the call returns false and
    [out] holds [centerToP] rescaled by [r / |centerToP|]; if [d >= 0] and
    [t >= 0] it returns true and [out] holds [pos + t * dir - center]; and
    the call returns true exactly when [d >= 0] and [t >= 0]. *)
Theorem closestPointOnSphere_roots (h : heap) (this : Ray.t)
    (center : loc) (r : R) (out : loc) (vpos vdir vc : Vec3) :
  h !! Ray.pos this = Some vpos -> h !! Ray.dir this = Some vdir ->
  h !! center = Some vc -> (out < length h)%nat ->
  V3ops.squaredLength vdir > 0 -> r > 0 ->
  V3ops.equals vpos vc = false ->
  let d := Sphere.discriminant vpos vdir vc r in
  let t := Sphere.nearerRoot vpos vdir vc r in
  (d >= 0 -> t < 0 ->
   exists h',
     Ray.closestPointOnSphere this center r out h = Returned false h'
     /\ h' !! out = Some (Sphere.nearestToOrigin vpos vc r))
  /\
  (d >= 0 -> t >= 0 ->
   exists h',
     Ray.closestPointOnSphere this center r out h = Returned true h'
     /\ h' !! out = Some (Sphere.pointAt vpos vdir vc t))
  /\
  ((exists h',
      Ray.closestPointOnSphere this center r out h = Returned true h')
   <-> d >= 0 /\ t >= 0).
Proof.
  intros Hpos Hdir Hc Hout Hs Hr Hne d t.
  assert (Rgtb (V3ops.squaredLength vdir) 0 && Rgeb r 0 = true) as Hpre
      by (apply precondition_holds; [exact Hs | lra]).
  assert (V3ops.equals vpos vc || Reqb r 0 = false) as Hnd
      by (apply not_degenerate; [exact Hne | lra]).
  assert (d >= 0 -> t < 0 ->
          exists h',
            Ray.closestPointOnSphere this center r out h = Returned false h'
            /\ h' !! out = Some (Sphere.nearestToOrigin vpos vc r))
    as Hbehind.
  { intros Hd Ht.
    destruct (closest_behind h this vpos vdir Hpos Hdir center out vc r Hc
                Hout Hpre Hnd) as [tmps Hrun].
    - apply Rltb_false. change (0 <= d). lra.
    - apply Rltb_true. change (t < 0). exact Ht.
    - eexists. split; [exact Hrun |]. apply lookup_written. exact Hout. }
  assert (d >= 0 -> t >= 0 ->
          exists h',
            Ray.closestPointOnSphere this center r out h = Returned true h'
            /\ h' !! out = Some (Sphere.pointAt vpos vdir vc t))
    as Hhit.
  { intros Hd Ht.
    destruct (closest_hit h this vpos vdir Hpos Hdir center out vc r Hc
                Hout Hpre Hnd) as [tmps Hrun].
    - apply Rltb_false. change (0 <= d). lra.
    - apply Rltb_false. change (0 <= t). lra.
    - eexists. split; [exact Hrun |]. apply lookup_written. exact Hout. }
  split; [exact Hbehind |]. split; [exact Hhit |].
  split.
  - intros [h' Htrue].
    destruct (Rlt_le_dec d 0) as [Hd | Hd].
    + destruct (closest_miss h this vpos vdir Hpos Hdir center out vc r Hc
                  Hout Hpre Hnd) as [tmps Hrun].
      * apply Rltb_true. change (d < 0). exact Hd.
      * rewrite Hrun in Htrue. discriminate.
    + destruct (Rlt_le_dec t 0) as [Ht | Ht].
      * destruct (Hbehind ltac:(lra) Ht) as [h'' [Hrun _]].
        rewrite Hrun in Htrue. discriminate.
      * split; lra.
  - intros [Hd Ht]. destruct (Hhit Hd Ht) as [h' [Hrun _]].
    exists h'. exact Hrun.
Qed.

(** [sqrt e] at a perfect square. *)
Ltac eval_sqrt v :=
  match goal with
  | |- context [sqrt ?e] =>
      replace (sqrt e) with v
        by (symmetry; apply sqrt_lem_1; [lra | lra | lra])
  end.

Lemma closestPointOnSphere_roots_witness :
  (exists h',
     Ray.closestPointOnSphere (Ray.new 0 1) 2 1 3
       [V3 0 0 0; V3 (-1) 0 0; V3 3 0 0; V3 7 8 9]
     = Returned false h'
     /\ h' !! 3%nat = Some (V3 (-1) 0 0))
  /\
  (exists h',
     Ray.closestPointOnSphere (Ray.new 0 1) 2 1 3
       [V3 0 0 0; V3 1 0 0; V3 3 0 0; V3 7 8 9]
     = Returned true h'
     /\ h' !! 3%nat = Some (V3 (-1) 0 0)).
Proof.
  split.
  - destruct (closestPointOnSphere_roots
                [V3 0 0 0; V3 (-1) 0 0; V3 3 0 0; V3 7 8 9]
                (Ray.new 0 1) 2 1 3 _ _ _
                eq_refl eq_refl eq_refl ltac:(simpl; lia))
      as [Hbehind _].
    + unfold V3ops.squaredLength; simpl. lra.
    + lra.
    + unfold V3ops.equals, V3ops.near, EPSILON; simpl. Rdecide.
    + destruct Hbehind as [h' [Hrun Hout]].
      * unfold_sphere. lra.
      * unfold_sphere. eval_sqrt 2. lra.
      * exists h'. split; [exact Hrun |]. rewrite Hout.
        unfold_sphere. eval_sqrt 3. f_equal. f_equal; field.
  - destruct (closestPointOnSphere_roots
                [V3 0 0 0; V3 1 0 0; V3 3 0 0; V3 7 8 9]
                (Ray.new 0 1) 2 1 3 _ _ _
                eq_refl eq_refl eq_refl ltac:(simpl; lia))
      as [_ [Hhit _]].
    + unfold V3ops.squaredLength; simpl. lra.
    + lra.
    + unfold V3ops.equals, V3ops.near, EPSILON; simpl. Rdecide.
    + destruct Hhit as [h' [Hrun Hout]].
      * unfold_sphere. lra.
      * unfold_sphere. eval_sqrt 2. lra.
      * exists h'. split; [exact Hrun |]. rewrite Hout.
        unfold_sphere. eval_sqrt 2. f_equal. f_equal; field.
Defined.

(** C6 as stated fails: the origin differs from the centre, the radius is
    positive, [d >= 0] and [t >= 0], yet the call returns false. *)
Lemma closestPointOnSphere_roots_counterexample :
  V3 2000000 0 0 <> V3 2000001 0 0
  /\ V3ops.squaredLength (V3 1 0 0) > 0
  /\ 1 / 2 > 0
  /\ Sphere.discriminant (V3 2000000 0 0) (V3 1 0 0) (V3 2000001 0 0) (1 / 2)
     >= 0
  /\ Sphere.nearerRoot (V3 2000000 0 0) (V3 1 0 0) (V3 2000001 0 0) (1 / 2)
     >= 0
  /\ Ray.closestPointOnSphere (Ray.new 0 1) 2 (1 / 2) 3
       [V3 2000000 0 0; V3 1 0 0; V3 2000001 0 0; V3 7 8 9]
     = Returned false
         [V3 2000000 0 0; V3 1 0 0; V3 2000001 0 0; V3 7 8 9; V3 0 0 0].
Proof.
  split; [ intros E; apply (f_equal x3) in E; simpl in E; lra |].
  split; [ unfold V3ops.squaredLength; simpl; lra |].
  split; [ lra |].
  split; [ unfold_sphere; lra |].
  split.
  - unfold_sphere. eval_sqrt 1. lra.
  - apply far_degenerate. unfold V3ops.squaredLength; simpl; lra.
Qed.

(** *** The length of what each branch writes *)

Section OnSphere.
Context (vpos vdir vc : Vec3) (r : R).
Hypothesis Hr : 0 < r.

Lemma miss_length :
  Sphere.discriminant vpos vdir vc r < 0 ->
  V3ops.length (Sphere.missPoint vpos vdir vc r) = r.
Proof.
  intros Hd. unfold Sphere.missPoint.
  set (t := Rmax _ 0).
  set (pointOnRay := V3ops.add vpos (V3ops.scale vdir t)).
  set (toCenter := V3ops.sub vc pointOnRay).
  rewrite (miss_output pointOnRay toCenter vc _ eq_refl).
  rewrite <- (length_neg toCenter).
  apply rescaled_length; [lra |].
  rewrite squaredLength_neg.
  apply (miss_off_center vpos vdir vc r t). exact Hd.
Qed.

Lemma behind_length :
  vpos <> vc -> V3ops.length (Sphere.nearestToOrigin vpos vc r) = r.
Proof.
  intros Hne. unfold Sphere.nearestToOrigin.
  apply rescaled_length; [lra |].
  apply squaredLength_sub_pos. exact Hne.
Qed.

Lemma hit_length :
  0 < V3ops.squaredLength vdir ->
  0 <= Sphere.discriminant vpos vdir vc r ->
  V3ops.length
    (Sphere.pointAt vpos vdir vc (Sphere.nearerRoot vpos vdir vc r))
  = r.
Proof.
  intros Ha Hd. apply length_of_square; [lra |].
  unfold Sphere.pointAt. rewrite (point_on_ray_sq vpos vdir vc r).
  pose proof (nearer_root vpos vdir vc r Ha Hd) as Hroot.
  cbv zeta in Hroot.
  change ((- (2 * V3ops.dot (V3ops.sub vpos vc) vdir)
           - sqrt (2 * V3ops.dot (V3ops.sub vpos vc) vdir
                   * (2 * V3ops.dot (V3ops.sub vpos vc) vdir)
                   - 4 * V3ops.dot vdir vdir
                     * (V3ops.dot (V3ops.sub vpos vc) (V3ops.sub vpos vc)
                        - r * r)))
          / (2 * V3ops.dot vdir vdir))
    with (Sphere.nearerRoot vpos vdir vc r) in Hroot.
  lra.
Qed.

End OnSphere.

(** C10, amended.  Take a call whose precondition holds, with [r > 0] and
    [vec3.equals(pos, center)] false.  The call returns, and the vector it
    leaves in [out] has length exactly [r], on the intersection branch, on
    the miss branch and on the behind-the-origin branch alike. *)
Theorem closestPointOnSphere_on_sphere (h : heap) (this : Ray.t)
    (center : loc) (r : R) (out : loc) (vpos vdir vc : Vec3) :
  h !! Ray.pos this = Some vpos -> h !! Ray.dir this = Some vdir ->
  h !! center = Some vc -> (out < length h)%nat ->
  V3ops.squaredLength vdir > 0 -> r > 0 ->
  V3ops.equals vpos vc = false ->
  exists (res : bool) (h' : heap) (v : Vec3),
    Ray.closestPointOnSphere this center r out h = Returned res h'
    /\ h' !! out = Some v
    /\ V3ops.length v = r.
Proof.
  intros Hpos Hdir Hc Hout Hs Hr Hne.
  assert (Rgtb (V3ops.squaredLength vdir) 0 && Rgeb r 0 = true) as Hpre
      by (apply precondition_holds; [exact Hs | lra]).
  assert (V3ops.equals vpos vc || Reqb r 0 = false) as Hnd
      by (apply not_degenerate; [exact Hne | lra]).
  set (d := Sphere.discriminant vpos vdir vc r).
  set (t := Sphere.nearerRoot vpos vdir vc r).
  destruct (Rlt_le_dec d 0) as [Hd | Hd].
  - (* the ray misses the sphere *)
    destruct (closest_miss h this vpos vdir Hpos Hdir center out vc r Hc
                Hout Hpre Hnd) as [tmps Hrun].
    { apply Rltb_true. exact Hd. }
    exists false. eexists. eexists. split; [exact Hrun |]. split.
    + apply lookup_written. exact Hout.
    + apply (miss_length vpos vdir vc r); [lra | exact Hd].
  - assert (Rltb d 0 = false) as Hd' by (apply Rltb_false; exact Hd).
    destruct (Rlt_le_dec t 0) as [Ht | Ht].
    + (* the sphere is behind the origin *)
      destruct (closest_behind h this vpos vdir Hpos Hdir center out vc r Hc
                  Hout Hpre Hnd Hd') as [tmps Hrun].
      { apply Rltb_true. exact Ht. }
      exists false. eexists. eexists. split; [exact Hrun |]. split.
      * apply lookup_written. exact Hout.
      * apply (behind_length vpos vc r); [lra |].
        apply equals_false_neq. exact Hne.
    + (* the ray enters the sphere at the nearer root *)
      destruct (closest_hit h this vpos vdir Hpos Hdir center out vc r Hc
                  Hout Hpre Hnd Hd') as [tmps Hrun].
      { apply Rltb_false. exact Ht. }
      exists true. eexists. eexists. split; [exact Hrun |]. split.
      * apply lookup_written. exact Hout.
      * apply (hit_length vpos vdir vc r); [lra | lra | exact Hd].
Qed.

Lemma closestPointOnSphere_on_sphere_witness :
  exists (res : bool) (h' : heap) (v : Vec3),
    Ray.closestPointOnSphere (Ray.new 0 1) 2 1 3
      [V3 0 0 0; V3 1 0 0; V3 3 0 0; V3 7 8 9]
    = Returned res h'
    /\ h' !! 3%nat = Some v
    /\ V3ops.length v = 1.
Proof.
  apply (closestPointOnSphere_on_sphere
           [V3 0 0 0; V3 1 0 0; V3 3 0 0; V3 7 8 9]
           (Ray.new 0 1) 2 1 3 _ _ _
           eq_refl eq_refl eq_refl ltac:(simpl; lia)).
  - unfold V3ops.squaredLength; simpl. lra.
  - lra.
  - unfold V3ops.equals, V3ops.near, EPSILON; simpl. Rdecide.
Defined.

(** C10 as stated fails: the origin differs from the centre, the direction
    is not zero, the radius is positive, yet [out] is left holding a vector
    of length 5, not [r = 1/2]. *)
Lemma closestPointOnSphere_on_sphere_counterexample :
  V3 2000000 0 0 <> V3 2000001 0 0
  /\ V3ops.squaredLength (V3 1 0 0) > 0
  /\ 1 / 2 > 0
  /\ exists h',
       Ray.closestPointOnSphere (Ray.new 0 1) 2 (1 / 2) 3
         [V3 2000000 0 0; V3 1 0 0; V3 2000001 0 0; V3 3 4 0]
       = Returned false h'
       /\ h' !! 3%nat = Some (V3 3 4 0)
       /\ V3ops.length (V3 3 4 0) = 5
       /\ 5 <> 1 / 2.
Proof.
  split; [ intros E; apply (f_equal x3) in E; simpl in E; lra |].
  split; [ unfold V3ops.squaredLength; simpl; lra |].
  split; [ lra |].
  eexists. split; [| split; [| split]].
  - apply far_degenerate. unfold V3ops.squaredLength; simpl; lra.
  - reflexivity.
  - apply length_of_square; [lra |]. unfold V3ops.squaredLength; simpl. ring.
  - lra.
Qed.

(** ** Frustum.fromInvProjectionMatrix *)

(** *** The routines of gl-matrix against the table form *)

Lemma transform_agrees (m : Mat4) (v : Vec4) :
  V4ops.transformMat4 v m = ClipSpec.transform m v.
Proof. reflexivity. Qed.

Lemma corner_agrees (invProj : Mat4) (worldSize zoom : R) (zInMeters : bool)
    (sx sy sz : R) :
  Frustum.toTileSpace invProj worldSize (Rpower 2 zoom) zInMeters
    (V4 sx sy sz 1)
  = ClipSpec.corner invProj worldSize zoom zInMeters sx sy sz.
Proof.
  unfold Frustum.toTileSpace, ClipSpec.corner, V4ops.mul.
  rewrite transform_agrees. simpl. f_equal; ring.
Qed.

Lemma squares_zero (x y z : R) :
  x * x + y * y + z * z <= 0 -> x = 0 /\ y = 0 /\ z = 0.
Proof.
  intros Hle.
  pose proof (Rle_0_sqr x) as Hx. pose proof (Rle_0_sqr y) as Hy.
  pose proof (Rle_0_sqr z) as Hz. unfold Rsqr in Hx, Hy, Hz.
  repeat split; apply Rsqr_0_uniq; unfold Rsqr; lra.
Qed.

(** [normalize] divides a vector that is not zero by its length, and
    leaves the zero vector. *)
Lemma normalize_agrees (v : Vec3) :
  V3ops.normalize v = ClipSpec.unit v.
Proof.
  destruct v as [x y z].
  unfold V3ops.normalize, ClipSpec.unit, ClipSpec.norm, ClipSpec.inner,
    V3ops.squaredLength; simpl.
  set (len := x * x + y * y + z * z).
  destruct (Rlt_le_dec 0 len) as [Hpos | Hzero].
  - assert (Rgtb len 0 = true) as -> by (apply Rltb_true; exact Hpos).
    pose proof (sqrt_lt_R0 len Hpos) as Hs.
    destruct (Req_dec_T (sqrt len) 0) as [E | _]; [lra |].
    f_equal; field; lra.
  - assert (Rgtb len 0 = false) as -> by (apply Rltb_false; exact Hzero).
    destruct (squares_zero x y z Hzero) as [-> [-> ->]].
    unfold len.
    replace (0 * 0 + 0 * 0 + 0 * 0) with 0 by ring.
    rewrite sqrt_0.
    destruct (Req_dec_T 0 0) as [_ | N]; [| contradiction].
    f_equal; ring.
Qed.

Lemma plane_agrees (c0 c1 c2 : Vec4) :
  FrustumSpec.planeThrough c0 c1 c2 = ClipSpec.plane c0 c1 c2.
Proof.
  unfold FrustumSpec.planeThrough, ClipSpec.plane.
  rewrite normalize_agrees.
  replace (V3ops.cross (V3ops.sub (xyz c0) (xyz c1))
             (V3ops.sub (xyz c2) (xyz c1)))
    with (ClipSpec.crossProduct (ClipSpec.diff c0 c1) (ClipSpec.diff c2 c1))
    by (unfold ClipSpec.crossProduct, ClipSpec.diff, V3ops.cross, V3ops.sub;
        simpl; f_equal; ring).
  set (n := ClipSpec.unit _).
  unfold ClipSpec.inner, V3ops.dot; simpl. reflexivity.
Qed.

(** What the constructor returns, in the table form. *)
Lemma frustum_table (invProj : Mat4) (worldSize zoom : R)
    (zInMeters : bool) :
  let corner := ClipSpec.corner invProj worldSize zoom zInMeters in
  let c0 := corner (-1) 1 (-1) in
  let c1 := corner 1 1 (-1) in
  let c2 := corner 1 (-1) (-1) in
  let c3 := corner (-1) (-1) (-1) in
  let c4 := corner (-1) 1 1 in
  let c5 := corner 1 1 1 in
  let c6 := corner 1 (-1) 1 in
  let c7 := corner (-1) (-1) 1 in
  Frustum.fromInvProjectionMatrix invProj worldSize zoom zInMeters
  = Some (Frustum.new
            [c0; c1; c2; c3; c4; c5; c6; c7]
            [ ClipSpec.plane c0 c1 c2;
              ClipSpec.plane c6 c5 c4;
              ClipSpec.plane c0 c3 c7;
              ClipSpec.plane c2 c1 c5;
              ClipSpec.plane c3 c2 c6;
              ClipSpec.plane c0 c4 c5 ]).
Proof.
  intros corner c0 c1 c2 c3 c4 c5 c6 c7.
  unfold Frustum.fromInvProjectionMatrix, Frustum.clipSpaceCorners.
  cbn [map]. rewrite !corner_agrees.
  fold corner. fold c0 c1 c2 c3 c4 c5 c6 c7.
  cbn. unfold Frustum.concat.
  repeat match goal with
         | |- context [V4 (x3 ?n) (y3 ?n) (z3 ?n)
                         (- V3ops.dot ?n (xyz ?c))] =>
             match n with
             | V3ops.normalize
                 (V3ops.cross (V3ops.sub (xyz ?a) (xyz c))
                    (V3ops.sub (xyz ?b) (xyz c))) =>
                 change (V4 (x3 n) (y3 n) (z3 n) (- V3ops.dot n (xyz c)))
                   with (FrustumSpec.planeThrough a c b)
             end
         end.
  rewrite !plane_agrees. reflexivity.
Qed.

(** C4.  Take [invProj], [worldSize], [zoom] and [zInMeters] with
    [worldSize] and the [w] of every transformed cube corner not zero, so
    that every quotient is a finite number.  The constructor returns a
    frustum.  Its 8 points are the clip-space cube
    corners (+-1, +-1, +-1, 1) transformed by [invProj], x and y multiplied
    by [k = (1/w) / worldSize * 2^zoom], z by [1/w] when [zInMeters] and by
    [k] otherwise.  Its 6 planes are, in the order near, far, left, right,
    bottom, top, the planes through the corners of index {0,1,2}, {6,5,4},
    {0,3,7}, {2,1,5}, {3,2,6}, {0,4,5}, each with
    [n = normalize(cross(c0 - c1, c2 - c1))] and [d = -dot(n, c1)]. *)
Theorem fromInvProjectionMatrix_spec (invProj : Mat4) (worldSize zoom : R)
    (zInMeters : bool) :
  worldSize <> 0 ->
  (forall sx sy sz,
     ClipSpec.sign sx -> ClipSpec.sign sy -> ClipSpec.sign sz ->
     w4 (ClipSpec.transform invProj (V4 sx sy sz 1)) <> 0) ->
  let corner := ClipSpec.corner invProj worldSize zoom zInMeters in
  let c0 := corner (-1) 1 (-1) in
  let c1 := corner 1 1 (-1) in
  let c2 := corner 1 (-1) (-1) in
  let c3 := corner (-1) (-1) (-1) in
  let c4 := corner (-1) 1 1 in
  let c5 := corner 1 1 1 in
  let c6 := corner 1 (-1) 1 in
  let c7 := corner (-1) (-1) 1 in
  Frustum.fromInvProjectionMatrix invProj worldSize zoom zInMeters
  = Some (Frustum.new
            [c0; c1; c2; c3; c4; c5; c6; c7]
            [ ClipSpec.plane c0 c1 c2;
              ClipSpec.plane c6 c5 c4;
              ClipSpec.plane c0 c3 c7;
              ClipSpec.plane c2 c1 c5;
              ClipSpec.plane c3 c2 c6;
              ClipSpec.plane c0 c4 c5 ]).
Proof.
  intros _ _. exact (frustum_table invProj worldSize zoom zInMeters).
Qed.

Lemma perspective_w (sx sy sz : R) :
  w4 (ClipSpec.transform perspective (V4 sx sy sz 1)) = sz / 2 + 1.
Proof. unfold ClipSpec.transform, ClipSpec.entry; simpl. field. Qed.

Lemma perspective_corner (sx sy sz : R) :
  sz / 2 + 1 <> 0 ->
  ClipSpec.corner perspective 4 1 true sx sy sz
  = V4 (sx / (sz + 2)) (sy / (sz + 2)) (2 * sz / (sz + 2)) (1 / 2).
Proof.
  intros Hw. unfold ClipSpec.corner. rewrite perspective_w.
  rewrite Rpower_1 by lra.
  unfold ClipSpec.transform, ClipSpec.entry; simpl.
  f_equal; field; lra.
Qed.

Lemma perspective_near_cross :
  ClipSpec.crossProduct
    (ClipSpec.diff (V4 (-1 / (-1 + 2)) (1 / (-1 + 2)) (2 * -1 / (-1 + 2))
                      (1 / 2))
       (V4 (1 / (-1 + 2)) (1 / (-1 + 2)) (2 * -1 / (-1 + 2)) (1 / 2)))
    (ClipSpec.diff (V4 (1 / (-1 + 2)) (-1 / (-1 + 2)) (2 * -1 / (-1 + 2))
                      (1 / 2))
       (V4 (1 / (-1 + 2)) (1 / (-1 + 2)) (2 * -1 / (-1 + 2)) (1 / 2)))
  = V3 0 0 4.
Proof.
  unfold ClipSpec.crossProduct, ClipSpec.diff; simpl. f_equal; field.
Qed.

Lemma unit_z4 : ClipSpec.unit (V3 0 0 4) = V3 0 0 1.
Proof.
  unfold ClipSpec.unit, ClipSpec.norm, ClipSpec.inner; simpl.
  assert (sqrt (0 * 0 + 0 * 0 + 4 * 4) = 4) as ->
      by (apply sqrt_lem_1; lra).
  destruct (Req_dec_T 4 0) as [E | _]; [lra |].
  f_equal; field.
Qed.

Lemma fromInvProjectionMatrix_spec_witness :
  exists fr,
    Frustum.fromInvProjectionMatrix perspective 4 1 true = Some fr
    /\ Frustum.points fr !! 0%nat = Some (V4 (-1) 1 (-2) (1 / 2))
    /\ Frustum.points fr !! 4%nat = Some (V4 (-1 / 3) (1 / 3) (2 / 3) (1 / 2))
    /\ Frustum.planes fr !! 0%nat = Some (V4 0 0 1 2).
Proof.
  eexists. split.
  - apply fromInvProjectionMatrix_spec.
    + lra.
    + intros sx sy sz _ _ [-> | ->]; rewrite perspective_w; lra.
  - cbn [Frustum.points Frustum.planes lookup list_lookup].
    rewrite !perspective_corner by lra.
    split; [f_equal; f_equal; field |].
    split; [f_equal; f_equal; field |].
    f_equal. unfold ClipSpec.plane.
    rewrite perspective_near_cross.
    rewrite unit_z4.
    unfold ClipSpec.inner; simpl. f_equal; field.
Defined.

(** ** Aabb.quadrant *)

(** What [quadrant] builds, by the two tests on [index]. *)
Lemma quadrant_unfold (this : Aabb.t) (index : Z) :
  Aabb.quadrant this index
  = Aabb.new
      (V3 (if Z.eqb (Z.rem index 2) 0
           then x3 (Aabb.min this) else x3 (Aabb.center this))
          (if Z.ltb index 2
           then y3 (Aabb.min this) else y3 (Aabb.center this))
          (z3 (Aabb.min this)))
      (V3 (if Z.eqb (Z.rem index 2) 0
           then x3 (Aabb.center this) else x3 (Aabb.max this))
          (if Z.ltb index 2
           then y3 (Aabb.center this) else y3 (Aabb.max this))
          (z3 (Aabb.max this))).
Proof.
  unfold Aabb.quadrant; simpl.
  destruct (Z.eqb (Z.rem index 2) 0), (Z.ltb index 2); reflexivity.
Qed.

(** C8.  The child [quadrant(index)] has x-range [[min.x, center.x]] when
    [index % 2 == 0] and [[center.x, max.x]] otherwise, y-range
    [[min.y, center.y]] when [index < 2] and [[center.y, max.y]] otherwise,
    and the z-range [[min.z, max.z]] of its parent. *)
Theorem quadrant_ranges (this : Aabb.t) (index : Z) :
  AabbSpec.ordered (Aabb.min this) (Aabb.max this) ->
  (0 <= index <= 3)%Z ->
  let q := Aabb.quadrant this index in
  (Z.rem index 2 = 0%Z ->
   x3 (Aabb.min q) = x3 (Aabb.min this)
   /\ x3 (Aabb.max q) = x3 (Aabb.center this))
  /\ (Z.rem index 2 <> 0%Z ->
      x3 (Aabb.min q) = x3 (Aabb.center this)
      /\ x3 (Aabb.max q) = x3 (Aabb.max this))
  /\ ((index < 2)%Z ->
      y3 (Aabb.min q) = y3 (Aabb.min this)
      /\ y3 (Aabb.max q) = y3 (Aabb.center this))
  /\ (~ (index < 2)%Z ->
      y3 (Aabb.min q) = y3 (Aabb.center this)
      /\ y3 (Aabb.max q) = y3 (Aabb.max this))
  /\ z3 (Aabb.min q) = z3 (Aabb.min this)
  /\ z3 (Aabb.max q) = z3 (Aabb.max this).
Proof.
  intros _ _ q. unfold q. rewrite quadrant_unfold. simpl.
  repeat split.
  - apply Z.eqb_eq in H. rewrite H. reflexivity.
  - apply Z.eqb_eq in H. rewrite H. reflexivity.
  - apply Z.eqb_neq in H. rewrite H. reflexivity.
  - apply Z.eqb_neq in H. rewrite H. reflexivity.
  - apply Z.ltb_lt in H. rewrite H. reflexivity.
  - apply Z.ltb_lt in H. rewrite H. reflexivity.
  - apply Z.ltb_nlt in H. rewrite H. reflexivity.
  - apply Z.ltb_nlt in H. rewrite H. reflexivity.
Qed.

Lemma quadrant_ranges_witness :
  let this := Aabb.new (V3 0 0 0) (V3 4 2 6) in
  let q := Aabb.quadrant this 1 in
  (x3 (Aabb.min q) = 2 /\ x3 (Aabb.max q) = 4)
  /\ (y3 (Aabb.min q) = 0 /\ y3 (Aabb.max q) = 1)
  /\ z3 (Aabb.min q) = 0 /\ z3 (Aabb.max q) = 6.
Proof.
  intros this q.
  destruct (quadrant_ranges this 1) as [_ [Hx [Hy [_ [Hz Hz']]]]].
  - unfold AabbSpec.ordered; simpl. lra.
  - lia.
  - destruct Hx as [Hx Hx']; [discriminate |].
    destruct Hy as [Hy Hy']; [lia |].
    fold q in Hx, Hx', Hy, Hy', Hz, Hz'.
    rewrite Hx, Hx', Hy, Hy', Hz, Hz'. unfold this; simpl.
    repeat split; lra.
Defined.

(** The four children, one by one. *)
Lemma quadrant_cases (i : Z) :
  (0 <= i <= 3)%Z -> i = 0%Z \/ i = 1%Z \/ i = 2%Z \/ i = 3%Z.
Proof. lia. Qed.

(** C9.  For a box with [min <= max] componentwise: a point of the plane
    lies in the parent's (x, y) rectangle exactly when it lies in that of
    one of the four children; two different children share only points of
    the centre lines [x = center.x] or [y = center.y]; every child has the
    z-range of the parent. *)
Theorem quadrant_partition (min_ max_ : Vec3) :
  AabbSpec.ordered min_ max_ ->
  let this := Aabb.new min_ max_ in
  (forall x y,
     AabbSpec.inRect this x y
     <-> exists i, (0 <= i <= 3)%Z
                   /\ AabbSpec.inRect (Aabb.quadrant this i) x y)
  /\ (forall i j x y,
        (0 <= i <= 3)%Z -> (0 <= j <= 3)%Z -> i <> j ->
        AabbSpec.inRect (Aabb.quadrant this i) x y ->
        AabbSpec.inRect (Aabb.quadrant this j) x y ->
        x = x3 (Aabb.center this) \/ y = y3 (Aabb.center this))
  /\ (forall i,
        (0 <= i <= 3)%Z ->
        z3 (Aabb.min (Aabb.quadrant this i)) = z3 min_
        /\ z3 (Aabb.max (Aabb.quadrant this i)) = z3 max_).
Proof.
  intros [Hx [Hy Hz]] this.
  destruct min_ as [x0 y0 z0], max_ as [x1 y1 z1]. simpl in Hx, Hy, Hz.
  split; [| split].
  - intros x y. split.
    + intros [[Hx0 Hx1] [Hy0 Hy1]]. simpl in Hx0, Hx1, Hy0, Hy1.
      destruct (Rle_lt_dec x ((x0 + x1) * (1 / 2))) as [Hxc | Hxc],
               (Rle_lt_dec y ((y0 + y1) * (1 / 2))) as [Hyc | Hyc].
      * exists 0%Z. split; [lia |]. rewrite quadrant_unfold.
        unfold AabbSpec.inRect; simpl. lra.
      * exists 2%Z. split; [lia |]. rewrite quadrant_unfold.
        unfold AabbSpec.inRect; simpl. lra.
      * exists 1%Z. split; [lia |]. rewrite quadrant_unfold.
        unfold AabbSpec.inRect; simpl. lra.
      * exists 3%Z. split; [lia |]. rewrite quadrant_unfold.
        unfold AabbSpec.inRect; simpl. lra.
    + intros [i [Hi Hin]].
      destruct (quadrant_cases i Hi) as [-> | [-> | [-> | ->]]];
        rewrite quadrant_unfold in Hin;
        unfold AabbSpec.inRect in *; simpl in *; lra.
  - intros i j x y Hi Hj Hne Hin Hjn.
    destruct (quadrant_cases i Hi) as [-> | [-> | [-> | ->]]];
      destruct (quadrant_cases j Hj) as [-> | [-> | [-> | ->]]];
      try (exfalso; apply Hne; reflexivity);
      rewrite quadrant_unfold in Hin, Hjn;
      unfold AabbSpec.inRect in *; simpl in *;
      destruct (Req_dec x ((x0 + x1) * (1 / 2))) as [Ex | Ex];
        try (left; exact Ex);
      right; lra.
  - intros i Hi. rewrite quadrant_unfold. simpl. split; reflexivity.
Qed.

Lemma quadrant_partition_witness :
  let this := Aabb.new (V3 0 0 0) (V3 4 2 6) in
  (exists i, (0 <= i <= 3)%Z
             /\ AabbSpec.inRect (Aabb.quadrant this i) 3 (1 / 2))
  /\ z3 (Aabb.min (Aabb.quadrant this 2)) = 0
  /\ z3 (Aabb.max (Aabb.quadrant this 2)) = 6.
Proof.
  intros this.
  destruct (quadrant_partition (V3 0 0 0) (V3 4 2 6)) as [Hcover [_ Hz]].
  - unfold AabbSpec.ordered; simpl. lra.
  - split.
    + apply (proj1 (Hcover 3 (1 / 2))).
      unfold AabbSpec.inRect; simpl. lra.
    + apply (Hz 2%Z). lia.
Defined.

(** ** Aabb.intersects: the plane stage *)

Lemma getCorners_spec (box : Aabb.t) (p : Vec3) :
  In p (Aabb.getCorners box) <-> AabbSpec.isCorner box p.
Proof.
  unfold Aabb.getCorners, AabbSpec.isCorner.
  destruct (Aabb.min box) as [x0 y0 z0], (Aabb.max box) as [x1 y1 z1].
  destruct p as [x y z]. simpl. split.
  - intros H.
    repeat (destruct H as [H | H]; [injection H as <- <- <-; auto |]).
    contradiction.
  - intros [[-> | ->] [[-> | ->] [-> | ->]]]; auto 10.
Qed.

Lemma getCorners_length (box : Aabb.t) :
  length (Aabb.getCorners box) = 8%nat.
Proof. reflexivity. Qed.

Lemma count_acc {A} (f : A -> bool) (l : list A) (acc : nat) :
  fold_left (fun n x => (n + if f x then 1 else 0)%nat) l acc
  = (acc + fold_left (fun n x => (n + if f x then 1 else 0)%nat) l 0%nat)%nat.
Proof.
  revert acc. induction l as [| x l IH]; intros acc; cbn [fold_left].
  - lia.
  - rewrite (IH (acc + _)%nat), (IH (0 + _)%nat). lia.
Qed.

Section PointsInside.
Context (plane : Vec4).

Let test (pt : Vec3) : bool :=
  Rgeb (V3ops.dot (xyz plane) pt + vget4 plane 3) 0.

Lemma test_inside (pt : Vec3) :
  test pt = true <-> AabbSpec.inside plane pt.
Proof.
  unfold test, Rgeb, AabbSpec.inside. rewrite Rleb_true. simpl.
  split; lra.
Qed.

Lemma pointsInside_cons (pt : Vec3) (pts : list Vec3) :
  Aabb.pointsInside plane (pt :: pts)
  = ((if test pt then 1 else 0) + Aabb.pointsInside plane pts)%nat.
Proof.
  unfold Aabb.pointsInside. cbn [fold_left].
  rewrite (count_acc test). reflexivity.
Qed.

Lemma pointsInside_le (pts : list Vec3) :
  (Aabb.pointsInside plane pts <= length pts)%nat.
Proof.
  induction pts as [| pt pts IH]; [reflexivity |].
  rewrite pointsInside_cons. simpl. destruct (test pt); lia.
Qed.

(** The count is 0 exactly when no point is inside. *)
Lemma pointsInside_zero (pts : list Vec3) :
  Aabb.pointsInside plane pts = 0%nat
  <-> forall pt, In pt pts -> ~ AabbSpec.inside plane pt.
Proof.
  induction pts as [| pt pts IH].
  - split; [intros _ p [] | reflexivity].
  - rewrite pointsInside_cons. split.
    + intros H p [<- | Hp].
      * rewrite <- test_inside. destruct (test pt); [lia | discriminate].
      * apply IH; [| exact Hp]. destruct (test pt); lia.
    + intros H.
      assert (test pt = false) as ->.
      { destruct (test pt) eqn:E; [| reflexivity].
        exfalso. apply (H pt); [left; reflexivity |].
        apply test_inside. exact E. }
      simpl. apply IH. intros p Hp. apply H. right. exact Hp.
Qed.

(** The count is the number of points exactly when all are inside. *)
Lemma pointsInside_all (pts : list Vec3) :
  Aabb.pointsInside plane pts = length pts
  <-> forall pt, In pt pts -> AabbSpec.inside plane pt.
Proof.
  induction pts as [| pt pts IH].
  - split; [intros _ p [] | reflexivity].
  - rewrite pointsInside_cons. pose proof (pointsInside_le pts) as Hle.
    simpl. split.
    + intros H p [<- | Hp].
      * rewrite <- test_inside. destruct (test pt); [reflexivity | lia].
      * apply IH; [| exact Hp]. destruct (test pt); lia.
    + intros H.
      assert (test pt = true) as ->
          by (apply test_inside; apply H; left; reflexivity).
      f_equal. apply IH. intros p Hp. apply H. right. exact Hp.
Qed.

End PointsInside.

Section PlaneLoop.
Context (pts : list Vec3).
Hypothesis Hpts : pts <> [].

Lemma planeLoop_outside (planes : list Vec4) (fullyInside : bool) :
  (exists plane, In plane planes /\ Aabb.pointsInside plane pts = 0%nat) ->
  Aabb.planeLoop planes pts fullyInside = None.
Proof.
  revert fullyInside.
  induction planes as [| pl planes IH]; intros fullyInside [plane [Hin H0]].
  - destruct Hin.
  - simpl. destruct (Nat.eqb (Aabb.pointsInside pl pts) 0) eqn:E;
      [reflexivity |].
    apply IH. destruct Hin as [-> | Hin].
    + rewrite H0 in E. discriminate.
    + exists plane. split; assumption.
Qed.

Lemma planeLoop_inside (planes : list Vec4) (fullyInside : bool) :
  (forall plane, In plane planes ->
     Aabb.pointsInside plane pts = length pts) ->
  Aabb.planeLoop planes pts fullyInside = Some fullyInside.
Proof.
  revert fullyInside.
  induction planes as [| pl planes IH]; intros fullyInside H.
  - reflexivity.
  - simpl. rewrite (H pl (or_introl eq_refl)).
    assert (length pts <> 0%nat) as Hlen
        by (destruct pts; [contradiction | discriminate]).
    apply Nat.eqb_neq in Hlen. rewrite Hlen.
    rewrite Nat.eqb_refl. simpl.
    apply IH. intros plane Hp. apply H. right. exact Hp.
Qed.

Lemma planeLoop_false (planes : list Vec4) :
  (forall plane, In plane planes ->
     Aabb.pointsInside plane pts <> 0%nat) ->
  Aabb.planeLoop planes pts false = Some false.
Proof.
  induction planes as [| pl planes IH]; intros H.
  - reflexivity.
  - simpl. pose proof (H pl (or_introl eq_refl)) as Hpl.
    apply Nat.eqb_neq in Hpl. rewrite Hpl.
    destruct (negb _); apply IH; intros plane Hp; apply H; right; exact Hp.
Qed.

Lemma planeLoop_undecided (planes : list Vec4) :
  (forall plane, In plane planes ->
     Aabb.pointsInside plane pts <> 0%nat) ->
  (exists plane, In plane planes
                 /\ Aabb.pointsInside plane pts <> length pts) ->
  Aabb.planeLoop planes pts true = Some false.
Proof.
  induction planes as [| pl planes IH]; intros Hnz [plane [Hin Hne]].
  - destruct Hin.
  - simpl. pose proof (Hnz pl (or_introl eq_refl)) as Hpl.
    apply Nat.eqb_neq in Hpl. rewrite Hpl.
    assert (forall p, In p planes -> Aabb.pointsInside p pts <> 0%nat)
      as Hnz' by (intros p Hp; apply Hnz; right; exact Hp).
    destruct (Nat.eqb (Aabb.pointsInside pl pts) (length pts)) eqn:E; simpl.
    + apply IH; [exact Hnz' |].
      destruct Hin as [-> | Hin].
      * apply Nat.eqb_eq in E. contradiction.
      * exists plane. split; assumption.
    + apply planeLoop_false. exact Hnz'.
Qed.

End PlaneLoop.

(** C2.  [intersects] returns 0 whenever some frustum plane has none of the
    box's 8 corners satisfying [dot(normal, corner) + d >= 0], and returns 2
    whenever every plane has all 8 corners satisfying it. *)
Theorem intersects_plane_stage (box : Aabb.t) (frustum : Frustum.t) :
  ((exists plane, In plane (Frustum.planes frustum)
      /\ forall p, AabbSpec.isCorner box p -> ~ AabbSpec.inside plane p) ->
   Aabb.intersects box frustum = 0%Z)
  /\
  ((forall plane, In plane (Frustum.planes frustum) ->
      forall p, AabbSpec.isCorner box p -> AabbSpec.inside plane p) ->
   Aabb.intersects box frustum = 2%Z).
Proof.
  split.
  - intros [plane [Hin Hout]]. unfold Aabb.intersects.
    rewrite planeLoop_outside; [reflexivity |].
    exists plane. split; [exact Hin |].
    apply pointsInside_zero. intros p Hp. apply Hout.
    apply getCorners_spec. exact Hp.
  - intros Hall. unfold Aabb.intersects.
    rewrite planeLoop_inside; [reflexivity | unfold Aabb.getCorners; discriminate |].
    intros plane Hin. apply pointsInside_all. intros p Hp.
    apply (Hall plane Hin). apply getCorners_spec. exact Hp.
Qed.

(** Membership in a list given by its elements. *)
Ltac each_member H :=
  repeat (destruct H as [H | H]; [subst |]); [.. | contradiction].

Lemma intersects_plane_stage_witness :
  Aabb.intersects (Aabb.new (V3 1000 1000 1000) (V3 1001 1001 1001))
    cubeFrustum = 0%Z
  /\ Aabb.intersects (Aabb.new (V3 0 0 0) (V3 (1 / 2) (1 / 2) (1 / 2)))
       cubeFrustum = 2%Z.
Proof.
  split.
  - apply (proj1 (intersects_plane_stage _ cubeFrustum)).
    exists (V4 (-1) 0 0 1). split.
    + simpl. auto.
    + intros [x y z] [Hx _]. unfold AabbSpec.inside, V3ops.dot. simpl in *.
      destruct Hx as [-> | ->]; lra.
  - apply (proj2 (intersects_plane_stage _ cubeFrustum)).
    intros plane Hin [x y z] [Hx [Hy Hz]].
    unfold AabbSpec.inside, V3ops.dot. simpl in Hin, Hx, Hy, Hz.
    each_member Hin; simpl;
      destruct Hx as [-> | ->], Hy as [-> | ->], Hz as [-> | ->]; lra.
Defined.

(** ** Aabb.intersects: the axis stage *)

Lemma least_spec (l : list R) :
  l <> [] ->
  In (AabbSpec.least l) l /\ forall x, In x l -> AabbSpec.least l <= x.
Proof.
  destruct l as [| x0 l]; [contradiction |]. intros _.
  unfold AabbSpec.least.
  induction l as [| y l IH]; cbn [fold_right].
  - split; [left; reflexivity |]. intros x [<- | []]. lra.
  - destruct IH as [Hin Hle].
    set (m := fold_right Rmin x0 l) in *.
    pose proof (Rmin_l y m) as Hl. pose proof (Rmin_r y m) as Hr.
    split.
    + apply Rmin_case.
      * right. left. reflexivity.
      * destruct Hin as [E | Hin]; [left | right; right]; assumption.
    + intros x [E | [E | Hx]].
      * pose proof (Hle x0 (or_introl eq_refl)). lra.
      * lra.
      * pose proof (Hle x (or_intror Hx)). lra.
Qed.

Lemma greatest_spec (l : list R) :
  l <> [] ->
  In (AabbSpec.greatest l) l /\ forall x, In x l -> x <= AabbSpec.greatest l.
Proof.
  destruct l as [| x0 l]; [contradiction |]. intros _.
  unfold AabbSpec.greatest.
  induction l as [| y l IH]; cbn [fold_right].
  - split; [left; reflexivity |]. intros x [<- | []]. lra.
  - destruct IH as [Hin Hle].
    set (m := fold_right Rmax x0 l) in *.
    pose proof (Rmax_l y m) as Hl. pose proof (Rmax_r y m) as Hr.
    split.
    + apply Rmax_case.
      * right. left. reflexivity.
      * destruct Hin as [E | Hin]; [left | right; right]; assumption.
    + intros x [E | [E | Hx]].
      * pose proof (Hle x0 (or_introl eq_refl)). lra.
      * lra.
      * pose proof (Hle x (or_intror Hx)). lra.
Qed.

(** The running minimum and maximum of the inner loop. *)
Lemma running_min_max (g : Vec4 -> R) (l : list Vec4) (lo hi : R) :
  let '(lo', hi') :=
    fold_left
      (fun '(projMin, projMax) p =>
         (Rmin projMin (g p), Rmax projMax (g p))) l (lo, hi) in
  (lo' <= lo /\ (forall p, In p l -> lo' <= g p)
   /\ (lo' = lo \/ In lo' (map g l)))
  /\ (hi <= hi' /\ (forall p, In p l -> g p <= hi')
      /\ (hi' = hi \/ In hi' (map g l))).
Proof.
  revert lo hi. induction l as [| q l IH]; intros lo hi.
  - simpl. repeat split; try lra; try (intros p []); left; reflexivity.
  - cbn [fold_left].
    specialize (IH (Rmin lo (g q)) (Rmax hi (g q))).
    destruct (fold_left _ l (Rmin lo (g q), Rmax hi (g q))) as [lo' hi'].
    destruct IH as [[Hlo [Hall Hmem]] [Hhi [Hall' Hmem']]].
    pose proof (Rmin_l lo (g q)). pose proof (Rmin_r lo (g q)).
    pose proof (Rmax_l hi (g q)). pose proof (Rmax_r hi (g q)).
    split; (split; [lra |]); split.
    + intros p [<- | Hp]; [lra | apply Hall; exact Hp].
    + destruct Hmem as [-> | Hmem]; [| right; right; exact Hmem].
      unfold Rmin. destruct (Rle_dec lo (g q));
        [left; reflexivity | right; left; reflexivity].
    + intros p [<- | Hp]; [lra | apply Hall'; exact Hp].
    + destruct Hmem' as [-> | Hmem']; [| right; right; exact Hmem'].
      unfold Rmax. destruct (Rle_dec hi (g q));
        [right; left; reflexivity | left; reflexivity].
Qed.

(** On doubles the loop computes the least and the greatest projection. *)
Lemma project_spec (box : Aabb.t) (frustum : Frustum.t) (axis : nat) :
  Frustum.points frustum <> [] -> (axis < 3)%nat ->
  AabbSpec.inRange box frustum ->
  Aabb.project box (Frustum.points frustum) axis
  = (AabbSpec.least (AabbSpec.projections box frustum axis),
     AabbSpec.greatest (AabbSpec.projections box frustum axis)).
Proof.
  intros Hne Hax Hrange.
  pose proof (running_min_max
                (fun p => vget4 p axis - vget (Aabb.min box) axis)
                (Frustum.points frustum) MAX_VALUE (- MAX_VALUE)) as Hrun.
  unfold Aabb.project.
  destruct (fold_left _ (Frustum.points frustum) (MAX_VALUE, - MAX_VALUE))
    as [lo hi].
  destruct Hrun as [[Hlo [Hall Hmem]] [Hhi [Hall' Hmem']]].
  fold (AabbSpec.projections box frustum axis) in Hmem, Hmem'.
  assert (AabbSpec.projections box frustum axis <> []) as Hne'.
  { unfold AabbSpec.projections.
    destruct (Frustum.points frustum); [contradiction | discriminate]. }
  destruct (least_spec _ Hne') as [Lin Lle].
  destruct (greatest_spec _ Hne') as [Gin Gle].
  assert (forall x, In x (AabbSpec.projections box frustum axis) ->
            lo <= x <= hi /\ - MAX_VALUE <= x <= MAX_VALUE) as Hb.
  { intros x Hx. unfold AabbSpec.projections in Hx.
    apply in_map_iff in Hx. destruct Hx as [p [<- Hp]].
    split; [split; [apply Hall | apply Hall']; exact Hp |].
    apply Hrange; assumption. }
  f_equal.
  - apply Rle_antisym.
    + apply (Hb _ Lin).
    + destruct Hmem as [-> | Hmem]; [apply (Hb _ Lin) | apply Lle; exact Hmem].
  - apply Rle_antisym.
    + destruct Hmem' as [-> | Hmem'];
        [apply (Hb _ Gin) | apply Gle; exact Hmem'].
    + apply (Hb _ Gin).
Qed.

(** The test of the axis loop is the failure of the two intervals to
    overlap. *)
Lemma separated_iff (lo hi w : R) :
  lo <= hi -> 0 <= w ->
  (Rltb hi 0 || Rgtb lo w = true <-> ~ AabbSpec.overlap lo hi 0 w).
Proof.
  intros Hlh Hw. unfold Rgtb. rewrite orb_true_iff, !Rltb_true. split.
  - intros [H | H] [x Hx]; lra.
  - intros Hno.
    destruct (Rlt_le_dec hi 0) as [H | H]; [left; exact H |].
    destruct (Rlt_le_dec w lo) as [H' | H']; [right; exact H' |].
    exfalso. apply Hno. exists (Rmax lo 0).
    pose proof (Rmax_l lo 0). pose proof (Rmax_r lo 0).
    assert (Rmax lo 0 <= hi) by (apply Rmax_lub; lra).
    assert (Rmax lo 0 <= w) by (apply Rmax_lub; lra).
    lra.
Qed.

Section AxisLoop.
Context (box : Aabb.t) (frustum : Frustum.t).
Hypothesis Hpoints : Frustum.points frustum <> [].
Hypothesis Hordered : AabbSpec.ordered (Aabb.min box) (Aabb.max box).
Hypothesis Hrange : AabbSpec.inRange box frustum.

Lemma axis_test (axis : nat) :
  (axis < 3)%nat ->
  let '(projMin, projMax) :=
    Aabb.project box (Frustum.points frustum) axis in
  Rltb projMax 0
  || Rgtb projMin (vget (Aabb.max box) axis - vget (Aabb.min box) axis)
  = true
  <-> ~ AabbSpec.overlapOn box frustum axis.
Proof.
  intros Hax. rewrite project_spec by assumption.
  unfold AabbSpec.overlapOn. apply separated_iff.
  - assert (AabbSpec.projections box frustum axis <> []) as Hne'.
    { unfold AabbSpec.projections.
      destruct (Frustum.points frustum); [contradiction | discriminate]. }
    destruct (least_spec _ Hne') as [Lin Lle].
    destruct (greatest_spec _ Hne') as [Gin Gle].
    apply Lle. exact Gin.
  - destruct Hordered as [Hx [Hy Hz]].
    destruct axis as [| [| [| ?]]]; simpl; lra || lia.
Qed.

Lemma axisLoop_separated (axes : list nat) :
  (forall axis, In axis axes -> (axis < 3)%nat) ->
  (exists axis, In axis axes /\ ~ AabbSpec.overlapOn box frustum axis) ->
  Aabb.axisLoop box (Frustum.points frustum) axes = 0%Z.
Proof.
  induction axes as [| ax axes IH]; intros Hlt [axis [Hin Hsep]].
  - destruct Hin.
  - cbn [Aabb.axisLoop].
    pose proof (axis_test ax (Hlt ax (or_introl eq_refl))) as Htest.
    destruct (Aabb.project box (Frustum.points frustum) ax)
      as [projMin projMax].
    destruct (Rltb projMax 0 || Rgtb projMin _) eqn:E; [reflexivity |].
    apply IH.
    + intros a Ha. apply Hlt. right. exact Ha.
    + destruct Hin as [-> | Hin].
      * apply Htest in Hsep. discriminate.
      * exists axis. split; assumption.
Qed.

Lemma axisLoop_overlapping (axes : list nat) :
  (forall axis, In axis axes -> (axis < 3)%nat) ->
  (forall axis, In axis axes -> AabbSpec.overlapOn box frustum axis) ->
  Aabb.axisLoop box (Frustum.points frustum) axes = 1%Z.
Proof.
  induction axes as [| ax axes IH]; intros Hlt Hall.
  - reflexivity.
  - cbn [Aabb.axisLoop].
    pose proof (axis_test ax (Hlt ax (or_introl eq_refl))) as Htest.
    destruct (Aabb.project box (Frustum.points frustum) ax)
      as [projMin projMax].
    destruct (Rltb projMax 0 || Rgtb projMin _) eqn:E.
    + exfalso. apply (proj1 Htest eq_refl). apply Hall. left. reflexivity.
    + apply IH.
      * intros a Ha. apply Hlt. right. exact Ha.
      * intros a Ha. apply Hall. right. exact Ha.
Qed.

End AxisLoop.

Lemma axes_below_3 (axis : nat) : In axis (seq 0 3) <-> (axis < 3)%nat.
Proof. simpl. lia. Qed.

Lemma undecided_planeLoop (box : Aabb.t) (frustum : Frustum.t) :
  AabbSpec.undecided box frustum ->
  Aabb.planeLoop (Frustum.planes frustum) (Aabb.getCorners box) true
  = Some false.
Proof.
  intros [Hsome [plane [Hin [p [Hp Hout]]]]].
  apply planeLoop_undecided.
  - intros pl Hpl H0.
    destruct (Hsome pl Hpl) as [q [Hq Hqin]].
    apply (proj1 (pointsInside_zero pl _) H0 q); [| exact Hqin].
    apply getCorners_spec. exact Hq.
  - exists plane. split; [exact Hin |]. intros Hall.
    apply Hout. apply (proj1 (pointsInside_all plane _) Hall).
    apply getCorners_spec. exact Hp.
Qed.

(** C3.  Take a box with [min <= max] componentwise and a frustum of at
    least one corner, all projected coordinates being finite doubles, for
    which the plane stage decides neither 0 nor 2.  If on some axis of x, y,
    z the interval [[projMin, projMax]] of the frustum corner coordinates,
    each minus the box's [min], does not overlap [[0, max - min]], then
    [intersects] returns 0; if it overlaps on all three, 1. *)
Theorem intersects_axis_stage (box : Aabb.t) (frustum : Frustum.t) :
  Frustum.points frustum <> [] ->
  AabbSpec.ordered (Aabb.min box) (Aabb.max box) ->
  AabbSpec.inRange box frustum ->
  AabbSpec.undecided box frustum ->
  ((exists axis, (axis < 3)%nat /\ ~ AabbSpec.overlapOn box frustum axis) ->
   Aabb.intersects box frustum = 0%Z)
  /\
  ((forall axis, (axis < 3)%nat -> AabbSpec.overlapOn box frustum axis) ->
   Aabb.intersects box frustum = 1%Z).
Proof.
  intros Hpoints Hordered Hrange Hund.
  unfold Aabb.intersects. rewrite (undecided_planeLoop box frustum Hund).
  split.
  - intros [axis [Hax Hsep]].
    apply axisLoop_separated; try assumption.
    + intros a Ha. apply axes_below_3. exact Ha.
    + exists axis. split; [apply axes_below_3; exact Hax | exact Hsep].
  - intros Hall.
    apply axisLoop_overlapping; try assumption.
    + intros a Ha. apply axes_below_3. exact Ha.
    + intros a Ha. apply Hall. apply axes_below_3. exact Ha.
Qed.

Lemma MAX_VALUE_large : 1000 <= MAX_VALUE.
Proof.
  unfold MAX_VALUE. apply IZR_le. vm_compute. discriminate.
Qed.

Lemma intersects_axis_stage_witness :
  Aabb.intersects (Aabb.new (V3 (-1) (-1) (-1)) (V3 1 1 1)) farFrustum = 0%Z
  /\ Aabb.intersects (Aabb.new (V3 0 0 0) (V3 2 (1 / 2) (1 / 2))) cubeFrustum
     = 1%Z.
Proof.
  pose proof MAX_VALUE_large as HM.
  split.
  - refine (proj1 (intersects_axis_stage _ farFrustum _ _ _ _) _).
    + discriminate.
    + unfold AabbSpec.ordered; simpl. lra.
    + intros p axis Hin Hax. simpl in Hin. each_member Hin.
      destruct axis as [| [| [| ?]]]; simpl; lra || lia.
    + split.
      * intros plane Hin. simpl in Hin. each_member Hin.
        exists (V3 1 1 1). split.
        -- unfold AabbSpec.isCorner; simpl. auto.
        -- unfold AabbSpec.inside, V3ops.dot; simpl. lra.
      * exists (V4 1 0 0 0). split; [left; reflexivity |].
        exists (V3 (-1) 1 1). split.
        -- unfold AabbSpec.isCorner; simpl. auto.
        -- unfold AabbSpec.inside, V3ops.dot; simpl. lra.
    + exists 0%nat. split; [lia |].
      unfold AabbSpec.overlapOn, AabbSpec.projections; simpl.
      intros [x Hx]. lra.
  - refine (proj2 (intersects_axis_stage _ cubeFrustum _ _ _ _) _).
    + discriminate.
    + unfold AabbSpec.ordered; simpl. lra.
    + intros p axis Hin Hax. simpl in Hin.
      each_member Hin; destruct axis as [| [| [| ?]]]; simpl; lra || lia.
    + split.
      * intros plane Hin. exists (V3 0 0 0). split.
        -- unfold AabbSpec.isCorner; simpl. auto.
        -- unfold AabbSpec.inside, V3ops.dot. simpl in Hin.
           each_member Hin; simpl; lra.
      * exists (V4 (-1) 0 0 1). split; [simpl; auto |].
        exists (V3 2 0 0). split.
        -- unfold AabbSpec.isCorner; simpl. auto.
        -- unfold AabbSpec.inside, V3ops.dot; simpl. lra.
    + intros axis Hax. unfold AabbSpec.overlapOn.
      set (projs := AabbSpec.projections _ cubeFrustum axis).
      assert (In (-1 - 0) projs /\ In (1 - 0) projs) as [Hlo Hhi].
      { unfold projs, AabbSpec.projections.
        destruct axis as [| [| [| ?]]]; simpl; auto 20. lia. }
      assert (projs <> []) as Hne by (intros E; rewrite E in Hlo; destruct Hlo).
      destruct (least_spec projs Hne) as [_ Lle].
      destruct (greatest_spec projs Hne) as [_ Gle].
      pose proof (Lle _ Hlo). pose proof (Gle _ Hhi).
      exists 0. split; [lra |].
      destruct axis as [| [| [| ?]]]; simpl; lra || lia.
Defined.

(** * Further properties of the code *)

(** ** Aabb.distanceX, distanceY, distanceZ *)

(** The clamp [Math.max(Math.min(hi, p), lo)] of the three methods. *)
Lemma clamp_cases (lo hi p : R) :
  lo <= hi ->
  (p < lo /\ Rmax (Rmin hi p) lo = lo)
  \/ (lo <= p <= hi /\ Rmax (Rmin hi p) lo = p)
  \/ (hi < p /\ Rmax (Rmin hi p) lo = hi).
Proof.
  intros Hle.
  destruct (Rlt_le_dec p lo) as [H | H]; [left | right].
  - split; [exact H |].
    rewrite Rmin_right by lra. apply Rmax_right. lra.
  - destruct (Rle_lt_dec p hi) as [H' | H']; [left | right].
    + split; [lra |].
      rewrite Rmin_right by lra. apply Rmax_left. lra.
    + split; [exact H' |].
      rewrite Rmin_left by lra. apply Rmax_left. lra.
Qed.

(** X1.  For a box with [min <= max], on each axis: the distance added to
    the point's coordinate lands in [[min, max]]; it is 0 exactly when the
    coordinate is already there, positive exactly when the coordinate is
    below [min] and negative exactly when it is above [max]. *)
Theorem distance_sign (box : Aabb.t) (point : Vec3) :
  AabbSpec.ordered (Aabb.min box) (Aabb.max box) ->
  let within (d : R) (axis : nat) :=
    vget (Aabb.min box) axis <= vget point axis + d <= vget (Aabb.max box) axis
    /\ (d = 0 <-> vget (Aabb.min box) axis <= vget point axis
                  <= vget (Aabb.max box) axis)
    /\ (0 < d <-> vget point axis < vget (Aabb.min box) axis)
    /\ (d < 0 <-> vget (Aabb.max box) axis < vget point axis) in
  within (Aabb.distanceX box point) 0%nat
  /\ within (Aabb.distanceY box point) 1%nat
  /\ within (Aabb.distanceZ box point) 2%nat.
Proof.
  intros [Hx [Hy Hz]] within. unfold within.
  unfold Aabb.distanceX, Aabb.distanceY, Aabb.distanceZ. simpl.
  split; [| split].
  - destruct (clamp_cases _ _ (x3 point) Hx) as [[H ->] | [[H ->] | [H ->]]];
      repeat split; intros; lra.
  - destruct (clamp_cases _ _ (y3 point) Hy) as [[H ->] | [[H ->] | [H ->]]];
      repeat split; intros; lra.
  - destruct (clamp_cases _ _ (z3 point) Hz) as [[H ->] | [[H ->] | [H ->]]];
      repeat split; intros; lra.
Qed.

Lemma distance_sign_witness :
  Aabb.distanceX (Aabb.new (V3 0 0 0) (V3 4 2 6)) (V3 (-3) 1 9) = 3
  /\ Aabb.distanceY (Aabb.new (V3 0 0 0) (V3 4 2 6)) (V3 (-3) 1 9) = 0
  /\ Aabb.distanceZ (Aabb.new (V3 0 0 0) (V3 4 2 6)) (V3 (-3) 1 9) < 0.
Proof.
  destruct (distance_sign (Aabb.new (V3 0 0 0) (V3 4 2 6)) (V3 (-3) 1 9))
    as [[Hx [_ [Hxp _]]] [[_ [Hy _]] [_ [_ [_ Hz]]]]].
  - unfold AabbSpec.ordered; simpl. lra.
  - simpl in *. split; [| split].
    + assert (0 < Aabb.distanceX (Aabb.new (V3 0 0 0) (V3 4 2 6))
                    (V3 (-3) 1 9)) as Hpos by (apply Hxp; lra).
      revert Hx Hpos. unfold Aabb.distanceX; simpl.
      destruct (clamp_cases 0 4 (-3) ltac:(lra))
        as [[H ->] | [[H ->] | [H ->]]]; intros; lra.
    + apply Hy. lra.
    + apply Hz. lra.
Defined.

(** X2.  For a box with [min <= max], no coordinate of the box on an axis
    is nearer to the point's than the one the distance leads to. *)
Theorem distance_nearest (box : Aabb.t) (point : Vec3) (q : R) :
  AabbSpec.ordered (Aabb.min box) (Aabb.max box) ->
  (x3 (Aabb.min box) <= q <= x3 (Aabb.max box) ->
   Rabs (Aabb.distanceX box point) <= Rabs (q - x3 point))
  /\ (y3 (Aabb.min box) <= q <= y3 (Aabb.max box) ->
      Rabs (Aabb.distanceY box point) <= Rabs (q - y3 point))
  /\ (z3 (Aabb.min box) <= q <= z3 (Aabb.max box) ->
      Rabs (Aabb.distanceZ box point) <= Rabs (q - z3 point)).
Proof.
  intros [Hx [Hy Hz]].
  unfold Aabb.distanceX, Aabb.distanceY, Aabb.distanceZ. simpl.
  split; [| split]; intros Hq.
  - destruct (clamp_cases _ _ (x3 point) Hx) as [[H ->] | [[H ->] | [H ->]]];
      unfold Rabs; repeat destruct (Rcase_abs _); lra.
  - destruct (clamp_cases _ _ (y3 point) Hy) as [[H ->] | [[H ->] | [H ->]]];
      unfold Rabs; repeat destruct (Rcase_abs _); lra.
  - destruct (clamp_cases _ _ (z3 point) Hz) as [[H ->] | [[H ->] | [H ->]]];
      unfold Rabs; repeat destruct (Rcase_abs _); lra.
Qed.

Lemma distance_nearest_witness :
  Rabs (Aabb.distanceX (Aabb.new (V3 0 0 0) (V3 4 2 6)) (V3 (-3) 1 9))
  <= Rabs (2 - -3).
Proof.
  destruct (distance_nearest (Aabb.new (V3 0 0 0) (V3 4 2 6)) (V3 (-3) 1 9) 2)
    as [Hx _].
  - unfold AabbSpec.ordered; simpl. lra.
  - apply Hx. simpl. lra.
Defined.

(** X3.  A box whose [max] lies below its [min] on an axis clamps every
    point to [min] on that axis: the distance is [min - point]. *)
Theorem distance_unordered (box : Aabb.t) (point : Vec3) :
  (x3 (Aabb.max box) < x3 (Aabb.min box) ->
   Aabb.distanceX box point = x3 (Aabb.min box) - x3 point)
  /\ (y3 (Aabb.max box) < y3 (Aabb.min box) ->
      Aabb.distanceY box point = y3 (Aabb.min box) - y3 point)
  /\ (z3 (Aabb.max box) < z3 (Aabb.min box) ->
      Aabb.distanceZ box point = z3 (Aabb.min box) - z3 point).
Proof.
  unfold Aabb.distanceX, Aabb.distanceY, Aabb.distanceZ. simpl.
  split; [| split]; intros H; unfold Rmax, Rmin;
    repeat destruct (Rle_dec _ _); lra.
Qed.

Lemma distance_unordered_witness :
  Aabb.distanceX (Aabb.new (V3 5 0 0) (V3 1 1 1)) (V3 3 0 0) = 5 - 3.
Proof.
  apply (proj1 (distance_unordered (Aabb.new (V3 5 0 0) (V3 1 1 1))
                  (V3 3 0 0))).
  simpl. lra.
Defined.

(** ** Ray.intersectsPlane: the point written lies on the plane *)

(** X4.  When the ray is not parallel to the plane, the point left in [out]
    satisfies [dot(normal, out - pt) = 0]. *)
Theorem intersectsPlane_on_plane (h : heap) (this : Ray.t)
    (pt normal out : loc) (vpos vdir vpt vn : Vec3) :
  h !! Ray.pos this = Some vpos -> h !! Ray.dir this = Some vdir ->
  h !! pt = Some vpt -> h !! normal = Some vn -> (out < length h)%nat ->
  ~ Rabs (V3ops.dot vn vdir) < 1 / 1000000 ->
  exists h' v,
    Ray.intersectsPlane this pt normal out h = Returned true h'
    /\ h' !! out = Some v
    /\ V3ops.dot vn (V3ops.sub v vpt) = 0.
Proof.
  intros Hpos Hdir Hpt Hn Hout HD.
  destruct (intersectsPlane_run h this vpos vdir Hpos Hdir pt normal out
              vpt vn Hpt Hn Hout) as [tmps Hrun].
  cbv zeta in Hrun.
  assert (Rltb (Rabs (V3ops.dot vn vdir)) (1 / 1000000) = false) as HD'
      by (apply Rltb_false; lra).
  rewrite HD' in Hrun. simpl in Hrun.
  eexists. eexists. split; [exact Hrun |]. split.
  - apply lookup_written. exact Hout.
  - assert (V3ops.dot vn vdir <> 0) as Hnz.
    { intros E. rewrite E, Rabs_R0 in HD. lra. }
    set (D := V3ops.dot vn vdir) in *.
    set (t := V3ops.dot (V3ops.sub vpt vpos) vn / D).
    transitivity (t * D - V3ops.dot (V3ops.sub vpt vpos) vn).
    + unfold D, V3ops.dot, V3ops.sub, V3ops.scaleAndAdd; simpl. ring.
    + unfold t. field. exact Hnz.
Qed.

Lemma intersectsPlane_on_plane_witness :
  exists h' v,
    Ray.intersectsPlane (Ray.new 0 1) 2 3 4
      [V3 0 0 1; V3 1 2 (-1); V3 0 0 0; V3 0 0 1; V3 7 7 7]
    = Returned true h'
    /\ h' !! 4%nat = Some v
    /\ V3ops.dot (V3 0 0 1) (V3ops.sub v (V3 0 0 0)) = 0.
Proof.
  apply (intersectsPlane_on_plane
           [V3 0 0 1; V3 1 2 (-1); V3 0 0 0; V3 0 0 1; V3 7 7 7]
           (Ray.new 0 1) 2 3 4 _ _ _ _
           eq_refl eq_refl eq_refl eq_refl ltac:(simpl; lia)).
  unfold V3ops.dot; simpl. unfold Rabs. destruct (Rcase_abs _); lra.
Defined.

(** ** Ray.closestPointOnSphere: when it throws, what it leaves alone *)

Lemma zero_squaredLength (v : Vec3) :
  V3ops.squaredLength v <= 0 <-> v = V3 0 0 0.
Proof.
  split.
  - intros Hle. destruct v as [x y z].
    unfold V3ops.squaredLength in Hle; simpl in Hle.
    pose proof (Rle_0_sqr x) as Hx. pose proof (Rle_0_sqr y) as Hy.
    pose proof (Rle_0_sqr z) as Hz. unfold Rsqr in Hx, Hy, Hz.
    assert (x = 0) by (apply Rsqr_0_uniq; unfold Rsqr; lra).
    assert (y = 0) by (apply Rsqr_0_uniq; unfold Rsqr; lra).
    assert (z = 0) by (apply Rsqr_0_uniq; unfold Rsqr; lra).
    subst. reflexivity.
  - intros ->. unfold V3ops.squaredLength; simpl. lra.
Qed.

(** Every call that passes the first assertion returns, having written at
    most [out] among the arrays of the caller. *)
Lemma closest_returns (h : heap) (this : Ray.t) (center : loc) (r : R)
    (out : loc) (vpos vdir vc : Vec3) :
  h !! Ray.pos this = Some vpos -> h !! Ray.dir this = Some vdir ->
  h !! center = Some vc -> (out < length h)%nat ->
  V3ops.squaredLength vdir > 0 -> r >= 0 ->
  exists res hh tmps,
    Ray.closestPointOnSphere this center r out h = Returned res (hh ++ tmps)
    /\ (hh = h \/ exists v, hh = <[out := v]> h).
Proof.
  intros Hpos Hdir Hc Hout Hs Hr.
  pose proof (precondition_holds vdir r Hs Hr) as Hpre.
  destruct (V3ops.equals vpos vc || Reqb r 0) eqn:Hdeg.
  - exists false, h, [V3 0 0 0]. split; [| left; reflexivity].
    eapply closest_degenerate; eassumption.
  - destruct (Rltb (Sphere.discriminant vpos vdir vc r) 0) eqn:Hd.
    + destruct (closest_miss h this vpos vdir Hpos Hdir center out vc r Hc
                  Hout Hpre Hdeg Hd) as [tmps Hrun].
      exists false. eexists. exists tmps. split; [exact Hrun |].
      right. eexists. reflexivity.
    + destruct (Rltb (Sphere.nearerRoot vpos vdir vc r) 0) eqn:Ht.
      * destruct (closest_behind h this vpos vdir Hpos Hdir center out vc r
                    Hc Hout Hpre Hdeg Hd Ht) as [tmps Hrun].
        exists false. eexists. exists tmps. split; [exact Hrun |].
        right. eexists. reflexivity.
      * destruct (closest_hit h this vpos vdir Hpos Hdir center out vc r
                    Hc Hout Hpre Hdeg Hd Ht) as [tmps Hrun].
        exists true. eexists. exists tmps. split; [exact Hrun |].
        right. eexists. reflexivity.
Qed.

(** X5.  The call throws an [AssertionError] exactly when [dir] is the zero
    vector or [r] is negative; in particular the second assertion, [a > 0],
    never fails. *)
Theorem closestPointOnSphere_throws (h : heap) (this : Ray.t)
    (center : loc) (r : R) (out : loc) (vpos vdir vc : Vec3) :
  h !! Ray.pos this = Some vpos -> h !! Ray.dir this = Some vdir ->
  h !! center = Some vc -> (out < length h)%nat ->
  (Ray.closestPointOnSphere this center r out h = Thrown AssertionError
   <-> vdir = V3 0 0 0 \/ r < 0)
  /\ Ray.closestPointOnSphere this center r out h <> Thrown TypeError.
Proof.
  intros Hpos Hdir Hc Hout.
  destruct (Rlt_le_dec 0 (V3ops.squaredLength vdir)) as [Hs | Hs].
  - destruct (Rlt_le_dec r 0) as [Hr | Hr].
    + assert (Ray.closestPointOnSphere this center r out h
              = Thrown AssertionError) as Hrun.
      { eapply closest_asserts; try eassumption.
        apply andb_false_iff. right. apply Rleb_false. exact Hr. }
      rewrite Hrun. split; [| discriminate].
      split; [intros _; right; exact Hr | reflexivity].
    + destruct (closest_returns h this center r out vpos vdir vc
                  Hpos Hdir Hc Hout) as [res [hh [tmps [Hrun _]]]]; try lra.
      rewrite Hrun. split; [| discriminate]. split; [discriminate |].
      intros [-> | Hneg]; [| lra].
      unfold V3ops.squaredLength in Hs; simpl in Hs. lra.
  - assert (Ray.closestPointOnSphere this center r out h
            = Thrown AssertionError) as Hrun.
    { eapply closest_asserts; try eassumption.
      apply andb_false_iff. left. apply Rltb_false. exact Hs. }
    rewrite Hrun. split; [| discriminate].
    split; [| reflexivity].
    intros _. left. apply zero_squaredLength. exact Hs.
Qed.

Lemma closestPointOnSphere_throws_witness :
  Ray.closestPointOnSphere (Ray.new 0 1) 2 1 3
    [V3 0 0 0; V3 0 0 0; V3 3 0 0; V3 7 8 9]
  = Thrown AssertionError.
Proof.
  destruct (closestPointOnSphere_throws
              [V3 0 0 0; V3 0 0 0; V3 3 0 0; V3 7 8 9]
              (Ray.new 0 1) 2 1 3 _ _ _
              eq_refl eq_refl eq_refl ltac:(simpl; lia)) as [Hiff _].
  apply Hiff. left. reflexivity.
Defined.

(** X6.  A call that returns has changed no array of the caller other than
    [out], and has only added arrays to the store. *)
Theorem closestPointOnSphere_frame (h : heap) (this : Ray.t)
    (center : loc) (r : R) (out : loc) (vpos vdir vc : Vec3)
    (res : bool) (h' : heap) :
  h !! Ray.pos this = Some vpos -> h !! Ray.dir this = Some vdir ->
  h !! center = Some vc -> (out < length h)%nat ->
  Ray.closestPointOnSphere this center r out h = Returned res h' ->
  (length h <= length h')%nat
  /\ forall l, (l < length h)%nat -> l <> out -> h' !! l = h !! l.
Proof.
  intros Hpos Hdir Hc Hout Hrun.
  destruct (Rlt_le_dec 0 (V3ops.squaredLength vdir)) as [Hs | Hs];
    [destruct (Rlt_le_dec r 0) as [Hr | Hr] |].
  - assert (Ray.closestPointOnSphere this center r out h
            = Thrown AssertionError) as E.
    { eapply closest_asserts; try eassumption.
      apply andb_false_iff. right. apply Rleb_false. exact Hr. }
    rewrite E in Hrun. discriminate.
  - destruct (closest_returns h this center r out vpos vdir vc
                Hpos Hdir Hc Hout) as [res' [hh [tmps [Hrun' Hhh]]]];
      try lra.
    rewrite Hrun' in Hrun. injection Hrun as _ <-.
    destruct Hhh as [-> | [v ->]].
    + split.
      * rewrite length_app. lia.
      * intros l Hl _. apply lookup_extended. exact Hl.
    + split.
      * rewrite length_app, length_insert. lia.
      * intros l Hl Hne. apply lookup_not_written; assumption.
  - assert (Ray.closestPointOnSphere this center r out h
            = Thrown AssertionError) as E.
    { eapply closest_asserts; try eassumption.
      apply andb_false_iff. left. apply Rltb_false. exact Hs. }
    rewrite E in Hrun. discriminate.
Qed.

Lemma closestPointOnSphere_frame_witness :
  (4 <= 5)%nat
  /\ [V3 2000000 0 0; V3 1 0 0; V3 2000001 0 0; V3 7 8 9; V3 0 0 0] !! 1%nat
     = [V3 2000000 0 0; V3 1 0 0; V3 2000001 0 0; V3 7 8 9] !! 1%nat.
Proof.
  destruct (closestPointOnSphere_frame
              [V3 2000000 0 0; V3 1 0 0; V3 2000001 0 0; V3 7 8 9]
              (Ray.new 0 1) 2 (1 / 2) 3 _ _ _ false _
              eq_refl eq_refl eq_refl ltac:(simpl; lia)
              (far_degenerate (V3 1 0 0) (V3 7 8 9)
                 ltac:(unfold V3ops.squaredLength; simpl; lra)))
    as [Hlen Hsame].
  split; [exact Hlen |].
  apply Hsame; simpl; lia.
Defined.

(** ** Ray.closestPointOnSphere: rays from inside, and the first hit *)

Section Roots.
Context (vpos vdir vc : Vec3) (r : R).
Hypothesis Ha : 0 < V3ops.squaredLength vdir.

Let a := Sphere.a vdir.
Let b := Sphere.b vpos vdir vc.
Let c := Sphere.c vpos vc r.
Let d := Sphere.discriminant vpos vdir vc r.
Let t := Sphere.nearerRoot vpos vdir vc r.

Lemma a_pos : 0 < a.
Proof. exact Ha. Qed.

(** With the origin strictly inside the sphere the discriminant is
    positive and the nearer root negative. *)
Lemma inside_root_negative :
  c < 0 -> 0 <= d /\ t < 0.
Proof.
  intros Hc. pose proof a_pos as Ha'.
  pose proof (Rle_0_sqr b) as Hb. unfold Rsqr in Hb.
  assert (b * b < d) as Hbd.
  { unfold d, Sphere.discriminant. fold a b c. nra. }
  split; [lra |].
  pose proof (sqrt_sqrt d ltac:(lra)) as Hs.
  pose proof (sqrt_pos d) as Hs0.
  unfold t, Sphere.nearerRoot. fold a b d.
  set (s := sqrt d) in *.
  assert (- b - s < 0) as Hnum.
  { destruct (Rlt_le_dec (- b - s) 0) as [H | H]; [exact H |].
    exfalso. assert (s * s <= b * b) by nra. lra. }
  assert (0 < / (2 * a)) as Hinv by (apply Rinv_0_lt_compat; lra).
  unfold Rdiv. nra.
Qed.

(** Before the nearer root the quadratic is positive. *)
Lemma before_root_positive (t' : R) :
  0 <= d -> t' < t -> 0 < a * t' * t' + b * t' + c.
Proof.
  intros Hd Ht'. pose proof a_pos as Ha'.
  pose proof (nearer_root vpos vdir vc r Ha Hd) as Hroot.
  cbv zeta in Hroot.
  change (a * t * t + b * t + c = 0) in Hroot.
  pose proof (sqrt_pos d) as Hs0.
  assert (2 * a * t + b = - sqrt d) as Hslope.
  { unfold t, Sphere.nearerRoot. fold a b d. field. lra. }
  assert (a * t' * t' + b * t' + c
          = (t' - t) * (a * (t' + t) + b)) as ->.
  { transitivity ((a * t' * t' + b * t' + c) - (a * t * t + b * t + c));
      [rewrite Hroot; ring | ring]. }
  assert (a * (t' + t) + b < 0) by nra.
  nra.
Qed.

End Roots.

(** X7.  A ray that starts strictly inside the sphere never gets a hit: the
    call returns false and [out] holds [centerToP] rescaled to length [r],
    whatever the direction. *)
Theorem closestPointOnSphere_from_inside (h : heap) (this : Ray.t)
    (center : loc) (r : R) (out : loc) (vpos vdir vc : Vec3) :
  h !! Ray.pos this = Some vpos -> h !! Ray.dir this = Some vdir ->
  h !! center = Some vc -> (out < length h)%nat ->
  V3ops.squaredLength vdir > 0 -> r > 0 ->
  V3ops.equals vpos vc = false ->
  V3ops.squaredLength (V3ops.sub vpos vc) < r * r ->
  exists h',
    Ray.closestPointOnSphere this center r out h = Returned false h'
    /\ h' !! out = Some (Sphere.nearestToOrigin vpos vc r).
Proof.
  intros Hpos Hdir Hc Hout Hs Hr Hne Hin.
  destruct (inside_root_negative vpos vdir vc r) as [Hd Ht]; [lra | |].
  { unfold Sphere.c, Sphere.centerToP.
    change (V3ops.dot (V3ops.sub vpos vc) (V3ops.sub vpos vc))
      with (V3ops.squaredLength (V3ops.sub vpos vc)). lra. }
  destruct (closest_behind h this vpos vdir Hpos Hdir center out vc r Hc
              Hout) as [tmps Hrun].
  - apply precondition_holds; [exact Hs | lra].
  - apply not_degenerate; [exact Hne | lra].
  - apply Rltb_false. exact Hd.
  - apply Rltb_true. exact Ht.
  - eexists. split; [exact Hrun |]. apply lookup_written. exact Hout.
Qed.

Lemma closestPointOnSphere_from_inside_witness :
  exists h',
    Ray.closestPointOnSphere (Ray.new 0 1) 2 5 3
      [V3 1 0 0; V3 1 0 0; V3 0 0 0; V3 7 8 9]
    = Returned false h'
    /\ h' !! 3%nat = Some (V3 5 0 0).
Proof.
  destruct (closestPointOnSphere_from_inside
              [V3 1 0 0; V3 1 0 0; V3 0 0 0; V3 7 8 9]
              (Ray.new 0 1) 2 5 3 _ _ _
              eq_refl eq_refl eq_refl ltac:(simpl; lia))
    as [h' [Hrun Hout]].
  - unfold V3ops.squaredLength; simpl. lra.
  - lra.
  - unfold V3ops.equals, V3ops.near, EPSILON; simpl. Rdecide.
  - unfold V3ops.squaredLength, V3ops.sub; simpl. lra.
  - exists h'. split; [exact Hrun |]. rewrite Hout.
    unfold_sphere. eval_sqrt 1. f_equal. f_equal; field.
Defined.

(** X8.  When the call returns true, [out] holds the point of the ray at
    some [t >= 0], seen from the centre; that point is on the sphere, and
    every point of the ray before it is strictly outside the sphere. *)
Theorem closestPointOnSphere_first_hit (h : heap) (this : Ray.t)
    (center : loc) (r : R) (out : loc) (vpos vdir vc : Vec3) (h' : heap) :
  h !! Ray.pos this = Some vpos -> h !! Ray.dir this = Some vdir ->
  h !! center = Some vc -> (out < length h)%nat ->
  Ray.closestPointOnSphere this center r out h = Returned true h' ->
  exists t,
    0 <= t
    /\ h' !! out = Some (Sphere.pointAt vpos vdir vc t)
    /\ V3ops.length (Sphere.pointAt vpos vdir vc t) = r
    /\ forall t', 0 <= t' < t ->
         r < V3ops.length (Sphere.pointAt vpos vdir vc t').
Proof.
  intros Hpos Hdir Hc Hout Hrun.
  destruct (Rlt_le_dec 0 (V3ops.squaredLength vdir)) as [Hs | Hs];
    [destruct (Rlt_le_dec r 0) as [Hr | Hr] |].
  - assert (Ray.closestPointOnSphere this center r out h
            = Thrown AssertionError) as E.
    { eapply closest_asserts; try eassumption.
      apply andb_false_iff. right. apply Rleb_false. exact Hr. }
    rewrite E in Hrun. discriminate.
  - assert (Rgtb (V3ops.squaredLength vdir) 0 && Rgeb r 0 = true) as Hpre
        by (apply precondition_holds; lra).
    destruct (V3ops.equals vpos vc || Reqb r 0) eqn:Hdeg.
    { rewrite (closest_degenerate h this vpos vdir Hpos Hdir center out vc r
                 Hc Hpre Hdeg) in Hrun. discriminate. }
    destruct (Rltb (Sphere.discriminant vpos vdir vc r) 0) eqn:Hd.
    { destruct (closest_miss h this vpos vdir Hpos Hdir center out vc r Hc
                  Hout Hpre Hdeg Hd) as [tmps E].
      rewrite E in Hrun. discriminate. }
    destruct (Rltb (Sphere.nearerRoot vpos vdir vc r) 0) eqn:Ht.
    { destruct (closest_behind h this vpos vdir Hpos Hdir center out vc r
                  Hc Hout Hpre Hdeg Hd Ht) as [tmps E].
      rewrite E in Hrun. discriminate. }
    destruct (closest_hit h this vpos vdir Hpos Hdir center out vc r
                Hc Hout Hpre Hdeg Hd Ht) as [tmps E].
    rewrite E in Hrun. injection Hrun as <-.
    apply Rltb_false in Hd. apply Rltb_false in Ht.
    apply orb_false_iff in Hdeg. destruct Hdeg as [_ Hr0].
    apply Reqb_false in Hr0.
    exists (Sphere.nearerRoot vpos vdir vc r).
    split; [exact Ht |]. split; [apply lookup_written; exact Hout |].
    split; [apply hit_length; lra |].
    intros t' [Ht0 Ht'].
    pose proof (before_root_positive vpos vdir vc r Hs t' Hd Ht') as Hq.
    unfold V3ops.length, Sphere.pointAt.
    rewrite (point_on_ray_sq vpos vdir vc r t').
    rewrite <- (sqrt_square r) at 1 by lra.
    apply sqrt_lt_1_alt.
    change (V3ops.dot vdir vdir) with (Sphere.a vdir).
    change (2 * V3ops.dot (V3ops.sub vpos vc) vdir)
      with (Sphere.b vpos vdir vc).
    change (V3ops.dot (V3ops.sub vpos vc) (V3ops.sub vpos vc) - r * r)
      with (Sphere.c vpos vc r).
    split; [nra | lra].
  - assert (Ray.closestPointOnSphere this center r out h
            = Thrown AssertionError) as E.
    { eapply closest_asserts; try eassumption.
      apply andb_false_iff. left. apply Rltb_false. exact Hs. }
    rewrite E in Hrun. discriminate.
Qed.

Lemma closestPointOnSphere_first_hit_witness :
  exists t,
    0 <= t
    /\ V3ops.length (Sphere.pointAt (V3 0 0 0) (V3 1 0 0) (V3 3 0 0) t) = 1
    /\ forall t', 0 <= t' < t ->
         1 < V3ops.length (Sphere.pointAt (V3 0 0 0) (V3 1 0 0) (V3 3 0 0) t').
Proof.
  destruct (closest_hit [V3 0 0 0; V3 1 0 0; V3 3 0 0; V3 7 8 9]
              (Ray.new 0 1) (V3 0 0 0) (V3 1 0 0) eq_refl eq_refl
              2%nat 3%nat (V3 3 0 0) 1 eq_refl ltac:(simpl; lia))
    as [tmps Hrun].
  - apply precondition_holds; [unfold V3ops.squaredLength; simpl |]; lra.
  - apply not_degenerate; [| lra].
    unfold V3ops.equals, V3ops.near, EPSILON; simpl. Rdecide.
  - apply Rltb_false. unfold_sphere. lra.
  - apply Rltb_false. unfold_sphere. eval_sqrt 2. lra.
  - destruct (closestPointOnSphere_first_hit
                [V3 0 0 0; V3 1 0 0; V3 3 0 0; V3 7 8 9]
                (Ray.new 0 1) 2 1 3 _ _ _ _
                eq_refl eq_refl eq_refl ltac:(simpl; lia) Hrun)
      as [t [Ht [_ [Hlen Hbefore]]]].
    exists t. split; [exact Ht |]. split; [exact Hlen | exact Hbefore].
Defined.

(** ** Frustum.fromInvProjectionMatrix: the planes it builds *)

Lemma cross_orthogonal (a b : Vec3) :
  V3ops.dot (V3ops.cross a b) a = 0 /\ V3ops.dot (V3ops.cross a b) b = 0.
Proof. unfold V3ops.dot, V3ops.cross; simpl. split; ring. Qed.

(** [normalize] multiplies by one number. *)
Lemma normalize_scale (v : Vec3) :
  exists k, V3ops.normalize v = V3ops.scale v k.
Proof. unfold V3ops.normalize. eexists. reflexivity. Qed.

Lemma normalize_unit (v : Vec3) :
  0 < V3ops.squaredLength v -> V3ops.squaredLength (V3ops.normalize v) = 1.
Proof.
  intros Hv. unfold V3ops.normalize.
  assert (Rgtb (V3ops.squaredLength v) 0 = true) as ->
      by (apply Rltb_true; exact Hv).
  pose proof (sqrt_sqrt _ (Rlt_le _ _ Hv)) as Hs.
  pose proof (sqrt_lt_R0 _ Hv) as Hs0.
  set (s := sqrt (V3ops.squaredLength v)) in *.
  transitivity (V3ops.squaredLength v * (1 / s) * (1 / s)).
  - unfold V3ops.squaredLength; simpl. ring.
  - rewrite <- Hs. field. lra.
Qed.

Lemma normalize_zero (v : Vec3) :
  V3ops.squaredLength v <= 0 -> V3ops.normalize v = V3 0 0 0.
Proof.
  intros Hv. apply zero_squaredLength in Hv. subst v.
  unfold V3ops.normalize; simpl. f_equal; ring.
Qed.

Lemma planeThrough_contains (c0 c1 c2 : Vec4) :
  onPlane (FrustumSpec.planeThrough c0 c1 c2) c0
  /\ onPlane (FrustumSpec.planeThrough c0 c1 c2) c1
  /\ onPlane (FrustumSpec.planeThrough c0 c1 c2) c2.
Proof.
  unfold onPlane, FrustumSpec.planeThrough.
  set (a := V3ops.sub (xyz c0) (xyz c1)).
  set (b := V3ops.sub (xyz c2) (xyz c1)).
  destruct (normalize_scale (V3ops.cross a b)) as [k ->].
  destruct (cross_orthogonal a b) as [Ha Hb].
  cbn [xyz x4 y4 z4 w4].
  set (n := V3ops.scale (V3ops.cross a b) k).
  assert (forall p, V3ops.dot (V3 (x3 n) (y3 n) (z3 n)) p = V3ops.dot n p)
    as Hn by (intros p; reflexivity).
  rewrite !Hn.
  assert (V3ops.dot n a = 0) as Ha'.
  { transitivity (k * V3ops.dot (V3ops.cross a b) a);
      [unfold n, V3ops.dot, V3ops.scale; simpl; ring | rewrite Ha; ring]. }
  assert (V3ops.dot n b = 0) as Hb'.
  { transitivity (k * V3ops.dot (V3ops.cross a b) b);
      [unfold n, V3ops.dot, V3ops.scale; simpl; ring | rewrite Hb; ring]. }
  split; [| split].
  - transitivity (V3ops.dot n a);
      [unfold a, V3ops.dot, V3ops.sub; simpl; ring | exact Ha'].
  - unfold V3ops.dot; simpl. ring.
  - transitivity (V3ops.dot n b);
      [unfold b, V3ops.dot, V3ops.sub; simpl; ring | exact Hb'].
Qed.

(** X9.  Every plane of the frustum the constructor returns passes through
    the three corners it is built from: the corners at the indices of its
    triple satisfy [dot(n, corner) + d = 0]. *)
Theorem frustum_planes_through_corners (invProj : Mat4) (worldSize zoom : R)
    (zInMeters : bool) (fr : Frustum.t) (j p0 p1 p2 : nat) :
  Frustum.fromInvProjectionMatrix invProj worldSize zoom zInMeters = Some fr ->
  Frustum.frustumPlanePointIndices !! j = Some (p0, p1, p2) ->
  exists plane c0 c1 c2,
    Frustum.planes fr !! j = Some plane
    /\ Frustum.points fr !! p0 = Some c0
    /\ Frustum.points fr !! p1 = Some c1
    /\ Frustum.points fr !! p2 = Some c2
    /\ onPlane plane c0 /\ onPlane plane c1 /\ onPlane plane c2.
Proof.
  intros Hfr Hj.
  unfold Frustum.fromInvProjectionMatrix in Hfr. cbn in Hfr.
  injection Hfr as <-.
  do 6 (destruct j as [| j];
        [ cbn in Hj; injection Hj as <- <- <-;
          do 4 eexists;
          repeat (split; [reflexivity |]);
          apply planeThrough_contains
        | ]).
  cbn in Hj. discriminate.
Qed.

Lemma frustum_planes_through_corners_witness :
  exists fr plane c0 c1 c2,
    Frustum.fromInvProjectionMatrix identity 1 0 false = Some fr
    /\ Frustum.planes fr !! 0%nat = Some plane
    /\ Frustum.points fr !! 0%nat = Some c0
    /\ Frustum.points fr !! 1%nat = Some c1
    /\ Frustum.points fr !! 2%nat = Some c2
    /\ onPlane plane c0 /\ onPlane plane c1 /\ onPlane plane c2.
Proof.
  eexists.
  destruct (frustum_planes_through_corners identity 1 0 false _
              0 0 1 2 eq_refl eq_refl) as [plane [c0 [c1 [c2 H]]]].
  exists plane, c0, c1, c2. split; [reflexivity | exact H].
Defined.

Lemma plane_normal (c0 c1 c2 : Vec4) :
  let u := ClipSpec.crossProduct (ClipSpec.diff c0 c1) (ClipSpec.diff c2 c1) in
  (u <> V3 0 0 0 -> V3ops.length (xyz (ClipSpec.plane c0 c1 c2)) = 1)
  /\ (u = V3 0 0 0 -> ClipSpec.plane c0 c1 c2 = V4 0 0 0 0).
Proof.
  intros u. unfold ClipSpec.plane. fold u.
  rewrite <- (normalize_agrees u). split.
  - intros Hu.
    assert (0 < V3ops.squaredLength u) as Hpos.
    { destruct (Rlt_le_dec 0 (V3ops.squaredLength u)) as [H | H];
        [exact H |].
      exfalso. apply Hu. apply zero_squaredLength. exact H. }
    apply length_of_square; [lra |].
    transitivity (V3ops.squaredLength (V3ops.normalize u));
      [reflexivity |].
    rewrite (normalize_unit u Hpos). ring.
  - intros ->. rewrite normalize_zero
      by (unfold V3ops.squaredLength; simpl; lra).
    unfold ClipSpec.inner; simpl. f_equal; ring.
Qed.

(** X10.  Take [worldSize] and the [w] of every transformed cube corner not
    zero.  Each plane of the frustum the constructor returns comes from the
    three corners [c0], [c1], [c2] of its index triple: when
    [cross(c0 - c1, c2 - c1)] is not the zero vector the normal of the
    plane has length exactly 1, and when it is the zero vector the plane is
    [(0, 0, 0, 0)]. *)
Theorem frustum_normals_unit (invProj : Mat4) (worldSize zoom : R)
    (zInMeters : bool) (fr : Frustum.t) (j p0 p1 p2 : nat) :
  worldSize <> 0 ->
  (forall sx sy sz,
     ClipSpec.sign sx -> ClipSpec.sign sy -> ClipSpec.sign sz ->
     w4 (ClipSpec.transform invProj (V4 sx sy sz 1)) <> 0) ->
  Frustum.fromInvProjectionMatrix invProj worldSize zoom zInMeters = Some fr ->
  Frustum.frustumPlanePointIndices !! j = Some (p0, p1, p2) ->
  exists plane c0 c1 c2,
    Frustum.planes fr !! j = Some plane
    /\ Frustum.points fr !! p0 = Some c0
    /\ Frustum.points fr !! p1 = Some c1
    /\ Frustum.points fr !! p2 = Some c2
    /\ (ClipSpec.crossProduct (ClipSpec.diff c0 c1) (ClipSpec.diff c2 c1)
        <> V3 0 0 0 ->
        V3ops.length (xyz plane) = 1)
    /\ (ClipSpec.crossProduct (ClipSpec.diff c0 c1) (ClipSpec.diff c2 c1)
        = V3 0 0 0 ->
        plane = V4 0 0 0 0).
Proof.
  intros _ _ Hfr Hj.
  rewrite frustum_table in Hfr. cbv zeta in Hfr. injection Hfr as <-.
  do 6 (destruct j as [| j];
        [ cbn in Hj; injection Hj as <- <- <-;
          do 4 eexists;
          repeat (split; [reflexivity |]);
          apply plane_normal
        | ]).
  cbn in Hj. discriminate.
Qed.

Lemma frustum_normals_unit_witness :
  exists fr plane,
    Frustum.fromInvProjectionMatrix perspective 4 1 true = Some fr
    /\ Frustum.planes fr !! 0%nat = Some plane
    /\ V3ops.length (xyz plane) = 1.
Proof.
  destruct (frustum_normals_unit perspective 4 1 true _ 0 0 1 2
              ltac:(lra)
              ltac:(intros sx sy sz _ _ [-> | ->]; rewrite perspective_w; lra)
              (frustum_table perspective 4 1 true) eq_refl)
    as [plane [c0 [c1 [c2 [Hplane [H0 [H1 [H2 [Hunit _]]]]]]]]].
  cbn [Frustum.points lookup list_lookup] in H0, H1, H2.
  rewrite perspective_corner in H0, H1, H2 by lra.
  injection H0 as <-. injection H1 as <-. injection H2 as <-.
  eexists. exists plane.
  split; [apply (frustum_table perspective 4 1 true) |].
  split; [exact Hplane |].
  apply Hunit. rewrite perspective_near_cross.
  intros E. apply (f_equal z3) in E. simpl in E. lra.
Defined.

Lemma cross_swap (a b : Vec3) :
  V3ops.cross b a = V3ops.scale (V3ops.cross a b) (-1).
Proof. unfold V3ops.cross, V3ops.scale; simpl. f_equal; ring. Qed.

Lemma normalize_neg (v : Vec3) :
  V3ops.normalize (V3ops.scale v (-1))
  = V3ops.scale (V3ops.normalize v) (-1).
Proof.
  unfold V3ops.normalize. rewrite squaredLength_neg.
  unfold V3ops.scale; simpl. f_equal; ring.
Qed.

(** X11.  The order of the three corners carries the orientation: with the
    first and the last exchanged the constructor's plane has normal and
    offset negated. *)
Theorem planeOf_reversed (coords : list Vec4) (p0 p1 p2 : nat)
    (plane : Vec4) :
  Frustum.planeOf coords (p0, p1, p2) = Some plane ->
  Frustum.planeOf coords (p2, p1, p0) = Some (flipped plane).
Proof.
  unfold Frustum.planeOf.
  destruct (coords !! p0) as [c0 |] eqn:H0; [| discriminate].
  destruct (coords !! p1) as [c1 |] eqn:H1; [| discriminate].
  destruct (coords !! p2) as [c2 |] eqn:H2; [| discriminate].
  cbn. intros [= <-]. f_equal.
  rewrite cross_swap, normalize_neg.
  unfold flipped, Frustum.concat, V3ops.dot, V3ops.scale; simpl.
  f_equal; ring.
Qed.

Lemma planeOf_reversed_witness :
  Frustum.planeOf Frustum.clipSpaceCorners (2, 1, 0)%nat
  = option_map flipped (Frustum.planeOf Frustum.clipSpaceCorners (0, 1, 2)%nat).
Proof.
  exact (planeOf_reversed Frustum.clipSpaceCorners 0 1 2 _ eq_refl).
Defined.

(** ** Aabb.intersects: what each result means *)

Lemma planeLoop_true (pts : list Vec3) (planes : list Vec4)
    (fullyInside : bool) :
  Aabb.planeLoop planes pts fullyInside = Some true ->
  fullyInside = true
  /\ forall plane, In plane planes ->
       Aabb.pointsInside plane pts = length pts.
Proof.
  revert fullyInside.
  induction planes as [| pl planes IH]; intros fullyInside H.
  - simpl in H. injection H as ->. split; [reflexivity | intros p []].
  - simpl in H.
    destruct (Nat.eqb (Aabb.pointsInside pl pts) 0); [discriminate |].
    destruct (Nat.eqb (Aabb.pointsInside pl pts) (length pts)) eqn:E;
      simpl in H; destruct (IH _ H) as [Hf Hall].
    + split; [exact Hf |]. intros p [<- | Hp].
      * apply Nat.eqb_eq. exact E.
      * apply Hall. exact Hp.
    + discriminate.
Qed.

Lemma planeLoop_some (pts : list Vec3) (planes : list Vec4)
    (fullyInside : bool) :
  (forall plane, In plane planes -> Aabb.pointsInside plane pts <> 0%nat) ->
  exists b, Aabb.planeLoop planes pts fullyInside = Some b.
Proof.
  revert fullyInside.
  induction planes as [| pl planes IH]; intros fullyInside H.
  - eexists. reflexivity.
  - simpl. pose proof (H pl (or_introl eq_refl)) as Hpl.
    apply Nat.eqb_neq in Hpl. rewrite Hpl.
    apply IH. intros p Hp. apply H. right. exact Hp.
Qed.

Lemma axisLoop_result (box : Aabb.t) (points : list Vec4) (axes : list nat) :
  Aabb.axisLoop box points axes = 0%Z \/ Aabb.axisLoop box points axes = 1%Z.
Proof.
  induction axes as [| ax axes IH]; [right; reflexivity |].
  cbn [Aabb.axisLoop].
  destruct (Aabb.project box points ax) as [projMin projMax].
  destruct (Rltb projMax 0 || Rgtb projMin _); [left; reflexivity | exact IH].
Qed.

(** X12.  [intersects] returns 0, 1 or 2, and it returns 2 only when every
    corner of the box satisfies [dot(normal, corner) + d >= 0] for every
    plane of the frustum. *)
Theorem intersects_result (box : Aabb.t) (frustum : Frustum.t) :
  (Aabb.intersects box frustum = 0%Z \/ Aabb.intersects box frustum = 1%Z
   \/ Aabb.intersects box frustum = 2%Z)
  /\ (Aabb.intersects box frustum = 2%Z <->
      forall plane, In plane (Frustum.planes frustum) ->
      forall p, AabbSpec.isCorner box p -> AabbSpec.inside plane p).
Proof.
  unfold Aabb.intersects.
  destruct (Aabb.planeLoop (Frustum.planes frustum) (Aabb.getCorners box)
              true) as [[|] |] eqn:E.
  - split; [right; right; reflexivity |].
    split; [| reflexivity]. intros _ plane Hin p Hp.
    destruct (planeLoop_true _ _ _ E) as [_ Hall].
    apply (proj1 (pointsInside_all plane _) (Hall plane Hin)).
    apply getCorners_spec. exact Hp.
  - pose proof (axisLoop_result box (Frustum.points frustum) (seq 0 3))
      as Hax.
    split; [destruct Hax as [-> | ->]; auto |].
    split; [destruct Hax as [-> | ->]; discriminate |].
    intros Hall. exfalso.
    rewrite planeLoop_inside in E; [discriminate | discriminate |].
    intros plane Hin. apply pointsInside_all. intros p Hp.
    apply (Hall plane Hin). apply getCorners_spec. exact Hp.
  - split; [left; reflexivity |].
    split; [discriminate |].
    intros Hall. exfalso.
    rewrite planeLoop_inside in E; [discriminate | discriminate |].
    intros plane Hin. apply pointsInside_all. intros p Hp.
    apply (Hall plane Hin). apply getCorners_spec. exact Hp.
Qed.

(** A linear form is at least as large at some corner of the box as at any
    point of the box. *)
Lemma corner_dominates (box : Aabb.t) (n q : Vec3) :
  inBox box q ->
  exists p, AabbSpec.isCorner box p /\ V3ops.dot n q <= V3ops.dot n p.
Proof.
  intros [[Hx0 Hx1] [[Hy0 Hy1] [Hz0 Hz1]]].
  exists (V3 (if Rle_dec 0 (x3 n) then x3 (Aabb.max box)
              else x3 (Aabb.min box))
             (if Rle_dec 0 (y3 n) then y3 (Aabb.max box)
              else y3 (Aabb.min box))
             (if Rle_dec 0 (z3 n) then z3 (Aabb.max box)
              else z3 (Aabb.min box))).
  split.
  - unfold AabbSpec.isCorner; simpl.
    destruct (Rle_dec 0 (x3 n)), (Rle_dec 0 (y3 n)), (Rle_dec 0 (z3 n));
      auto.
  - unfold V3ops.dot; simpl.
    assert (x3 n * x3 q
            <= x3 n * (if Rle_dec 0 (x3 n) then x3 (Aabb.max box)
                       else x3 (Aabb.min box)))
      by (destruct (Rle_dec 0 (x3 n)); nra).
    assert (y3 n * y3 q
            <= y3 n * (if Rle_dec 0 (y3 n) then y3 (Aabb.max box)
                       else y3 (Aabb.min box)))
      by (destruct (Rle_dec 0 (y3 n)); nra).
    assert (z3 n * z3 q
            <= z3 n * (if Rle_dec 0 (z3 n) then z3 (Aabb.max box)
                       else z3 (Aabb.min box)))
      by (destruct (Rle_dec 0 (z3 n)); nra).
    lra.
Qed.

(** X13.  No false rejection: if some corner point of the frustum lies in
    the box and satisfies [dot(normal, p) + d >= 0] for every plane, then
    [intersects] does not return 0. *)
Theorem intersects_not_culled (box : Aabb.t) (frustum : Frustum.t)
    (q : Vec4) :
  AabbSpec.ordered (Aabb.min box) (Aabb.max box) ->
  AabbSpec.inRange box frustum ->
  In q (Frustum.points frustum) ->
  inBox box (xyz q) ->
  (forall plane, In plane (Frustum.planes frustum) ->
     AabbSpec.inside plane (xyz q)) ->
  Aabb.intersects box frustum <> 0%Z.
Proof.
  intros Hord Hrange Hq Hbox Hplanes.
  assert (Frustum.points frustum <> []) as Hne
      by (intros E; rewrite E in Hq; destruct Hq).
  unfold Aabb.intersects.
  destruct (planeLoop_some (Aabb.getCorners box) (Frustum.planes frustum)
              true) as [b ->].
  { intros plane Hin H0.
    destruct (corner_dominates box (xyz plane) (xyz q) Hbox)
      as [p [Hp Hle]].
    apply (proj1 (pointsInside_zero plane _) H0 p).
    - apply getCorners_spec. exact Hp.
    - pose proof (Hplanes plane Hin) as Hin'.
      unfold AabbSpec.inside in *. lra. }
  destruct b; [discriminate |].
  rewrite (axisLoop_overlapping box frustum Hne Hord Hrange);
    [discriminate | |].
  - intros a Ha. apply axes_below_3. exact Ha.
  - intros axis Ha. apply axes_below_3 in Ha.
    unfold AabbSpec.overlapOn.
    set (projs := AabbSpec.projections box frustum axis).
    assert (In (vget4 q axis - vget (Aabb.min box) axis) projs) as Hin.
    { unfold projs, AabbSpec.projections.
      apply in_map_iff. exists q. split; [reflexivity | exact Hq]. }
    assert (projs <> []) as Hne'
        by (intros E; rewrite E in Hin; destruct Hin).
    destruct (least_spec projs Hne') as [_ Lle].
    destruct (greatest_spec projs Hne') as [_ Gle].
    pose proof (Lle _ Hin). pose proof (Gle _ Hin).
    exists (vget4 q axis - vget (Aabb.min box) axis).
    split; [lra |].
    destruct Hbox as [[Hx0 Hx1] [[Hy0 Hy1] [Hz0 Hz1]]]. simpl in *.
    destruct axis as [| [| [| ?]]]; simpl; lra || lia.
Qed.

Lemma intersects_not_culled_witness :
  Aabb.intersects (Aabb.new (V3 0 0 0) (V3 2 2 2)) cubeFrustum <> 0%Z.
Proof.
  pose proof MAX_VALUE_large as HM.
  apply (intersects_not_culled _ cubeFrustum (V4 1 1 1 1)).
  - unfold AabbSpec.ordered; simpl. lra.
  - intros p axis Hin Hax. simpl in Hin.
    each_member Hin; destruct axis as [| [| [| ?]]]; simpl; lra || lia.
  - simpl. auto 10.
  - unfold inBox; simpl. lra.
  - intros plane Hin. unfold AabbSpec.inside, V3ops.dot. simpl in Hin.
    each_member Hin; simpl; lra.
Defined.

Lemma MAX_VALUE_pos : 0 < MAX_VALUE.
Proof. pose proof MAX_VALUE_large. lra. Qed.

(** X14.  A frustum without corner points: a box the plane stage does not
    decide is reported as not intersecting, since the running maximum of
    the first axis stays at [-Number.MAX_VALUE]. *)
Theorem intersects_no_points (box : Aabb.t) (frustum : Frustum.t) :
  Frustum.points frustum = [] ->
  AabbSpec.undecided box frustum ->
  Aabb.intersects box frustum = 0%Z.
Proof.
  intros Hpts Hund. unfold Aabb.intersects.
  rewrite (undecided_planeLoop box frustum Hund), Hpts.
  cbn [seq Aabb.axisLoop Aabb.project fold_left].
  assert (Rltb (- MAX_VALUE) 0 = true) as ->
      by (apply Rltb_true; pose proof MAX_VALUE_pos; lra).
  reflexivity.
Qed.

Lemma intersects_no_points_witness :
  Aabb.intersects (Aabb.new (V3 (-1) (-1) (-1)) (V3 1 1 1))
    (Frustum.new [] [V4 1 0 0 0]) = 0%Z.
Proof.
  apply intersects_no_points; [reflexivity |]. split.
  - intros plane Hin. simpl in Hin. each_member Hin.
    exists (V3 1 1 1). split.
    + unfold AabbSpec.isCorner; simpl. auto.
    + unfold AabbSpec.inside, V3ops.dot; simpl. lra.
  - exists (V4 1 0 0 0). split; [left; reflexivity |].
    exists (V3 (-1) 1 1). split.
    + unfold AabbSpec.isCorner; simpl. auto.
    + unfold AabbSpec.inside, V3ops.dot; simpl. lra.
Defined.

(** ** Aabb.getCorners *)

(** X15.  For a box with [min <= max], every array [getCorners] returns is
    a point of the box, and when [min < max] on all three axes the 8 arrays
    are pairwise different. *)
Theorem getCorners_in_box (box : Aabb.t) :
  AabbSpec.ordered (Aabb.min box) (Aabb.max box) ->
  (forall p, In p (Aabb.getCorners box) -> inBox box p)
  /\ (x3 (Aabb.min box) < x3 (Aabb.max box) ->
      y3 (Aabb.min box) < y3 (Aabb.max box) ->
      z3 (Aabb.min box) < z3 (Aabb.max box) ->
      List.NoDup (Aabb.getCorners box)).
Proof.
  intros [Hx [Hy Hz]]. split.
  - intros p Hp. apply getCorners_spec in Hp.
    destruct Hp as [Hpx [Hpy Hpz]]. unfold inBox.
    destruct Hpx as [-> | ->], Hpy as [-> | ->], Hpz as [-> | ->]; lra.
  - intros Hx' Hy' Hz'. unfold Aabb.getCorners. simpl.
    repeat (constructor;
            [ simpl; intros Hin;
              repeat (destruct Hin as [Hin | Hin];
                      [ injection Hin; intros; lra |]);
              exact Hin
            |]).
    constructor.
Qed.

Lemma getCorners_in_box_witness :
  inBox (Aabb.new (V3 0 0 0) (V3 4 2 6)) (V3 4 0 6)
  /\ List.NoDup (Aabb.getCorners (Aabb.new (V3 0 0 0) (V3 4 2 6))).
Proof.
  destruct (getCorners_in_box (Aabb.new (V3 0 0 0) (V3 4 2 6)))
    as [Hin Hnd].
  - unfold AabbSpec.ordered; simpl. lra.
  - split.
    + apply Hin. simpl. auto 10.
    + apply Hnd; simpl; lra.
Defined.

(** ** Aabb.quadrant: the child is a box inside its parent *)

(** X16.  For a parent built from [min <= max], every child has
    [min <= max], lies within the parent on all three axes, has half the
    parent's extent in x and in y, and the parent's extent in z. *)
Theorem quadrant_child (min_ max_ : Vec3) (index : Z) :
  AabbSpec.ordered min_ max_ ->
  let this := Aabb.new min_ max_ in
  let q := Aabb.quadrant this index in
  AabbSpec.ordered (Aabb.min q) (Aabb.max q)
  /\ inBox this (Aabb.min q) /\ inBox this (Aabb.max q)
  /\ x3 (Aabb.max q) - x3 (Aabb.min q) = (x3 max_ - x3 min_) / 2
  /\ y3 (Aabb.max q) - y3 (Aabb.min q) = (y3 max_ - y3 min_) / 2
  /\ z3 (Aabb.max q) - z3 (Aabb.min q) = z3 max_ - z3 min_.
Proof.
  intros [Hx [Hy Hz]] this q. unfold q. rewrite quadrant_unfold.
  destruct min_ as [x0 y0 z0], max_ as [x1 y1 z1].
  unfold AabbSpec.ordered, inBox. simpl in *.
  destruct (Z.eqb (Z.rem index 2) 0), (Z.ltb index 2);
    repeat split; lra.
Qed.

Lemma quadrant_child_witness :
  let q := Aabb.quadrant (Aabb.new (V3 0 0 0) (V3 4 2 6)) 3 in
  AabbSpec.ordered (Aabb.min q) (Aabb.max q)
  /\ x3 (Aabb.max q) - x3 (Aabb.min q) = (4 - 0) / 2.
Proof.
  intros q.
  destruct (quadrant_child (V3 0 0 0) (V3 4 2 6) 3)
    as [Hord [_ [_ [Hx _]]]].
  - unfold AabbSpec.ordered; simpl. lra.
  - split; [exact Hord | exact Hx].
Defined.

(** X17.  [quadrant] accepts every integer: an index outside 0..3 gives the
    child of the index in 0..3 with the same parity and the same side of 2,
    so 4 gives child 2 and -1 gives child 1. *)
Theorem quadrant_any_index (this : Aabb.t) (index : Z) :
  (0 <= quadrantOf index <= 3)%Z
  /\ Aabb.quadrant this index = Aabb.quadrant this (quadrantOf index)
  /\ ((0 <= index <= 3)%Z -> quadrantOf index = index).
Proof.
  unfold quadrantOf.
  split; [| split].
  - destruct (Z.eqb (Z.rem index 2) 0), (Z.ltb index 2); lia.
  - rewrite !quadrant_unfold.
    destruct (Z.eqb (Z.rem index 2) 0), (Z.ltb index 2); reflexivity.
  - intros Hi.
    assert (index = 0 \/ index = 1 \/ index = 2 \/ index = 3)%Z
      as [-> | [-> | [-> | ->]]] by lia; reflexivity.
Qed.

Lemma quadrant_any_index_witness :
  Aabb.quadrant (Aabb.new (V3 0 0 0) (V3 4 2 6)) 4
  = Aabb.quadrant (Aabb.new (V3 0 0 0) (V3 4 2 6)) 2
  /\ Aabb.quadrant (Aabb.new (V3 0 0 0) (V3 4 2 6)) (-1)
     = Aabb.quadrant (Aabb.new (V3 0 0 0) (V3 4 2 6)) 1.
Proof.
  split.
  - exact (proj1 (proj2 (quadrant_any_index
                           (Aabb.new (V3 0 0 0) (V3 4 2 6)) 4))).
  - exact (proj1 (proj2 (quadrant_any_index
                           (Aabb.new (V3 0 0 0) (V3 4 2 6)) (-1)))).
Defined.

(** ** Frustum and Aabb together: the frustum of the identity projection *)

Lemma corner_identity (zInMeters : bool) (sx sy sz : R) :
  FrustumSpec.corner identity 1 0 zInMeters sx sy sz = V4 sx sy sz 1.
Proof.
  unfold FrustumSpec.corner, V4ops.transformMat4; simpl.
  rewrite Rpower_O by lra.
  destruct zInMeters; f_equal; field.
Qed.

(** [normalize] on a vector of length 4. *)
Lemma normalize_16 (x y z : R) :
  x * x + y * y + z * z = 16 ->
  V3ops.normalize (V3 x y z) = V3 (x / 4) (y / 4) (z / 4).
Proof.
  intros H. unfold V3ops.normalize, V3ops.squaredLength; simpl.
  rewrite H.
  assert (Rgtb 16 0 = true) as -> by (apply Rltb_true; lra).
  assert (sqrt 16 = 4) as ->
      by (apply sqrt_lem_1; lra).
  f_equal; field.
Qed.

Lemma planeThrough_axis (c0 c1 c2 : Vec4) (x y z : R) :
  V3ops.cross (V3ops.sub (xyz c0) (xyz c1)) (V3ops.sub (xyz c2) (xyz c1))
  = V3 x y z ->
  x * x + y * y + z * z = 16 ->
  FrustumSpec.planeThrough c0 c1 c2
  = V4 (x / 4) (y / 4) (z / 4)
       (- V3ops.dot (V3 (x / 4) (y / 4) (z / 4)) (xyz c1)).
Proof.
  intros Hc H16. unfold FrustumSpec.planeThrough.
  rewrite Hc, (normalize_16 x y z H16). reflexivity.
Qed.

(** The constructor on the identity matrix, [worldSize = 1], [zoom = 0]
    gives the cube [-1, 1]^3 with its six inward planes. *)
Lemma identity_frustum (zInMeters : bool) :
  Frustum.fromInvProjectionMatrix identity 1 0 zInMeters = Some cubeFrustum.
Proof.
  transitivity
    (let corner := FrustumSpec.corner identity 1 0 zInMeters in
     let c0 := corner (-1) 1 (-1) in
     let c1 := corner 1 1 (-1) in
     let c2 := corner 1 (-1) (-1) in
     let c3 := corner (-1) (-1) (-1) in
     let c4 := corner (-1) 1 1 in
     let c5 := corner 1 1 1 in
     let c6 := corner 1 (-1) 1 in
     let c7 := corner (-1) (-1) 1 in
     Some (Frustum.new
             [c0; c1; c2; c3; c4; c5; c6; c7]
             [ FrustumSpec.planeThrough c0 c1 c2;
               FrustumSpec.planeThrough c6 c5 c4;
               FrustumSpec.planeThrough c0 c3 c7;
               FrustumSpec.planeThrough c2 c1 c5;
               FrustumSpec.planeThrough c3 c2 c6;
               FrustumSpec.planeThrough c0 c4 c5 ]));
    [reflexivity |].
  cbv zeta. rewrite !corner_identity.
  unfold cubeFrustum, Frustum.clipSpaceCorners.
  rewrite (planeThrough_axis _ _ _ 0 0 4);
    [| unfold V3ops.cross, V3ops.sub; simpl; f_equal; ring | ring].
  rewrite (planeThrough_axis _ _ _ 0 0 (-4));
    [| unfold V3ops.cross, V3ops.sub; simpl; f_equal; ring | ring].
  rewrite (planeThrough_axis _ _ _ 4 0 0);
    [| unfold V3ops.cross, V3ops.sub; simpl; f_equal; ring | ring].
  rewrite (planeThrough_axis _ _ _ (-4) 0 0);
    [| unfold V3ops.cross, V3ops.sub; simpl; f_equal; ring | ring].
  rewrite (planeThrough_axis _ _ _ 0 4 0);
    [| unfold V3ops.cross, V3ops.sub; simpl; f_equal; ring | ring].
  rewrite (planeThrough_axis _ _ _ 0 (-4) 0);
    [| unfold V3ops.cross, V3ops.sub; simpl; f_equal; ring | ring].
  unfold V3ops.dot; simpl.
  repeat f_equal; field.
Qed.

(** A corner of the box, by its coordinates. *)
Ltac corner_at x y z :=
  exists (V3 x y z); split;
  [ unfold AabbSpec.isCorner; simpl; auto
  | unfold AabbSpec.inside, V3ops.dot; simpl; lra ].

(** No corner of the box is inside the plane. *)
Ltac all_outside :=
  intros [x y z] [Hpx [Hpy Hpz]]; simpl in Hpx, Hpy, Hpz;
  unfold AabbSpec.inside, V3ops.dot; simpl;
  destruct Hpx as [-> | ->], Hpy as [-> | ->], Hpz as [-> | ->]; lra.

Section Cube.
Context (box : Aabb.t).
Hypothesis Hord : AabbSpec.ordered (Aabb.min box) (Aabb.max box).
Hypothesis Hrange : AabbSpec.inRange box cubeFrustum.

Lemma cube_within : withinCube box -> Aabb.intersects box cubeFrustum = 2%Z.
Proof.
  intros [[Hx0 Hx1] [[Hy0 Hy1] [Hz0 Hz1]]].
  destruct Hord as [Hx [Hy Hz]].
  unfold Aabb.intersects.
  rewrite planeLoop_inside; [reflexivity | discriminate |].
  intros plane Hin. apply pointsInside_all. intros p Hp.
  apply getCorners_spec in Hp. destruct p as [x y z].
  destruct Hp as [Hpx [Hpy Hpz]]. simpl in Hpx, Hpy, Hpz.
  unfold AabbSpec.inside, V3ops.dot. simpl in Hin.
  each_member Hin; simpl;
    destruct Hpx as [-> | ->], Hpy as [-> | ->], Hpz as [-> | ->]; lra.
Qed.

Lemma cube_misses : missesCube box -> Aabb.intersects box cubeFrustum = 0%Z.
Proof.
  intros Hmiss. destruct Hord as [Hx [Hy Hz]].
  unfold Aabb.intersects.
  rewrite planeLoop_outside; [reflexivity |].
  assert (forall plane,
            (forall p, AabbSpec.isCorner box p -> ~ AabbSpec.inside plane p) ->
            Aabb.pointsInside plane (Aabb.getCorners box) = 0%nat) as Hzero.
  { intros plane H. apply pointsInside_zero. intros p Hp.
    apply H. apply getCorners_spec. exact Hp. }
  destruct Hmiss as [[H | H] | [[H | H] | [H | H]]].
  - exists (V4 1 0 0 1). split; [simpl; auto 10 |]. apply Hzero.
    all_outside.
  - exists (V4 (-1) 0 0 1). split; [simpl; auto 10 |]. apply Hzero.
    all_outside.
  - exists (V4 0 1 0 1). split; [simpl; auto 10 |]. apply Hzero.
    all_outside.
  - exists (V4 0 (-1) 0 1). split; [simpl; auto 10 |]. apply Hzero.
    all_outside.
  - exists (V4 0 0 1 1). split; [simpl; auto 10 |]. apply Hzero.
    all_outside.
  - exists (V4 0 0 (-1) 1). split; [simpl; auto 10 |]. apply Hzero.
    all_outside.
Qed.

Lemma cube_straddles :
  ~ withinCube box -> ~ missesCube box ->
  Aabb.intersects box cubeFrustum = 1%Z.
Proof.
  intros Hnw Hnm. destruct Hord as [Hx [Hy Hz]].
  assert (-1 <= x3 (Aabb.max box) /\ x3 (Aabb.min box) <= 1
          /\ -1 <= y3 (Aabb.max box) /\ y3 (Aabb.min box) <= 1
          /\ -1 <= z3 (Aabb.max box) /\ z3 (Aabb.min box) <= 1)
    as [Hx1 [Hx0 [Hy1 [Hy0 [Hz1 Hz0]]]]].
  { unfold missesCube in Hnm.
    repeat split; apply Rnot_lt_le; intros H; apply Hnm; auto 10. }
  unfold Aabb.intersects.
  rewrite (undecided_planeLoop box cubeFrustum).
  - apply axisLoop_overlapping; try assumption.
    + discriminate.
    + intros a Ha. apply axes_below_3. exact Ha.
    + intros axis Ha. apply axes_below_3 in Ha.
      unfold AabbSpec.overlapOn.
      set (projs := AabbSpec.projections box cubeFrustum axis).
      assert (In (-1 - vget (Aabb.min box) axis) projs
              /\ In (1 - vget (Aabb.min box) axis) projs) as [Hlo Hhi].
      { unfold projs, AabbSpec.projections.
        destruct axis as [| [| [| ?]]]; simpl; auto 20. lia. }
      assert (projs <> []) as Hne
          by (intros E; rewrite E in Hlo; destruct Hlo).
      destruct (least_spec projs Hne) as [_ Lle].
      destruct (greatest_spec projs Hne) as [_ Gle].
      pose proof (Lle _ Hlo). pose proof (Gle _ Hhi).
      exists (Rmax (-1 - vget (Aabb.min box) axis) 0).
      pose proof (Rmax_l (-1 - vget (Aabb.min box) axis) 0).
      pose proof (Rmax_r (-1 - vget (Aabb.min box) axis) 0).
      assert (Rmax (-1 - vget (Aabb.min box) axis) 0
              <= 1 - vget (Aabb.min box) axis).
      { apply Rmax_lub; destruct axis as [| [| [| ?]]]; simpl;
          lra || lia. }
      assert (Rmax (-1 - vget (Aabb.min box) axis) 0
              <= vget (Aabb.max box) axis - vget (Aabb.min box) axis).
      { apply Rmax_lub; destruct axis as [| [| [| ?]]]; simpl;
          lra || lia. }
      lra.
  - split.
    + intros plane Hin. simpl in Hin.
      each_member Hin;
        [ corner_at (x3 (Aabb.min box)) (y3 (Aabb.min box))
            (z3 (Aabb.max box))
        | corner_at (x3 (Aabb.min box)) (y3 (Aabb.min box))
            (z3 (Aabb.min box))
        | corner_at (x3 (Aabb.max box)) (y3 (Aabb.min box))
            (z3 (Aabb.min box))
        | corner_at (x3 (Aabb.min box)) (y3 (Aabb.min box))
            (z3 (Aabb.min box))
        | corner_at (x3 (Aabb.min box)) (y3 (Aabb.max box))
            (z3 (Aabb.min box))
        | corner_at (x3 (Aabb.min box)) (y3 (Aabb.min box))
            (z3 (Aabb.min box)) ].
    + destruct (Rlt_le_dec (x3 (Aabb.min box)) (-1)) as [H | Hx0'].
      { exists (V4 1 0 0 1). split; [simpl; auto 10 |].
        corner_at (x3 (Aabb.min box)) (y3 (Aabb.min box))
          (z3 (Aabb.min box)). }
      destruct (Rlt_le_dec 1 (x3 (Aabb.max box))) as [H | Hx1'].
      { exists (V4 (-1) 0 0 1). split; [simpl; auto 10 |].
        corner_at (x3 (Aabb.max box)) (y3 (Aabb.min box))
          (z3 (Aabb.min box)). }
      destruct (Rlt_le_dec (y3 (Aabb.min box)) (-1)) as [H | Hy0'].
      { exists (V4 0 1 0 1). split; [simpl; auto 10 |].
        corner_at (x3 (Aabb.min box)) (y3 (Aabb.min box))
          (z3 (Aabb.min box)). }
      destruct (Rlt_le_dec 1 (y3 (Aabb.max box))) as [H | Hy1'].
      { exists (V4 0 (-1) 0 1). split; [simpl; auto 10 |].
        corner_at (x3 (Aabb.min box)) (y3 (Aabb.max box))
          (z3 (Aabb.min box)). }
      destruct (Rlt_le_dec (z3 (Aabb.min box)) (-1)) as [H | Hz0'].
      { exists (V4 0 0 1 1). split; [simpl; auto 10 |].
        corner_at (x3 (Aabb.min box)) (y3 (Aabb.min box))
          (z3 (Aabb.min box)). }
      destruct (Rlt_le_dec 1 (z3 (Aabb.max box))) as [H | Hz1'].
      { exists (V4 0 0 (-1) 1). split; [simpl; auto 10 |].
        corner_at (x3 (Aabb.min box)) (y3 (Aabb.min box))
          (z3 (Aabb.max box)). }
      exfalso. apply Hnw. unfold withinCube. lra.
Qed.

End Cube.

(** X18.  The two classes together: against the frustum the constructor
    builds from the identity matrix with [worldSize = 1] and [zoom = 0],
    a box with [min <= max] gets 2 exactly when it lies within the cube
    [-1, 1]^3, 0 exactly when it misses the cube, and 1 otherwise. *)
Theorem identity_frustum_classifies (zInMeters : bool) (fr : Frustum.t)
    (box : Aabb.t) :
  Frustum.fromInvProjectionMatrix identity 1 0 zInMeters = Some fr ->
  AabbSpec.ordered (Aabb.min box) (Aabb.max box) ->
  AabbSpec.inRange box fr ->
  (Aabb.intersects box fr = 2%Z <-> withinCube box)
  /\ (Aabb.intersects box fr = 0%Z <-> missesCube box)
  /\ (Aabb.intersects box fr = 1%Z <-> ~ withinCube box /\ ~ missesCube box).
Proof.
  intros Hfr Hord Hrange.
  rewrite identity_frustum in Hfr. injection Hfr as <-.
  assert (withinCube box -> ~ missesCube box) as Hexcl.
  { destruct Hord as [Hx [Hy Hz]].
    intros [[? ?] [[? ?] [? ?]]] [[? | ?] | [[? | ?] | [? | ?]]]; lra. }
  assert (withinCube box \/ ~ withinCube box) as Hw
      by apply Classical_Prop.classic.
  assert (missesCube box \/ ~ missesCube box) as Hm
      by apply Classical_Prop.classic.
  pose proof (cube_within box Hord) as H2.
  pose proof (cube_misses box Hord) as H0.
  pose proof (cube_straddles box Hord Hrange) as H1.
  destruct Hw as [Hw | Hw].
  - rewrite (H2 Hw). pose proof (Hexcl Hw) as Hnm.
    split; [| split]; split; intros; try congruence; tauto.
  - destruct Hm as [Hm | Hm].
    + rewrite (H0 Hm).
      split; [| split]; split; intros; try congruence; tauto.
    + rewrite (H1 Hw Hm).
      split; [| split]; split; intros; try congruence; tauto.
Qed.

Lemma MAX_VALUE_huge : 1000000 <= MAX_VALUE.
Proof.
  unfold MAX_VALUE. apply IZR_le. vm_compute. discriminate.
Qed.

Lemma identity_frustum_classifies_witness :
  exists fr,
    Frustum.fromInvProjectionMatrix identity 1 0 false = Some fr
    /\ Aabb.intersects (Aabb.new (V3 0 0 0) (V3 1 1 1)) fr = 2%Z
    /\ Aabb.intersects (Aabb.new (V3 1000 1000 1000) (V3 1001 1001 1001)) fr
       = 0%Z.
Proof.
  pose proof MAX_VALUE_huge as HM.
  exists cubeFrustum. split; [apply identity_frustum |]. split.
  - apply (proj1 (identity_frustum_classifies false cubeFrustum
                    (Aabb.new (V3 0 0 0) (V3 1 1 1))
                    (identity_frustum false)
                    ltac:(unfold AabbSpec.ordered; simpl; lra)
                    ltac:(intros p axis Hin Hax; simpl in Hin;
                          each_member Hin;
                          destruct axis as [| [| [| ?]]]; simpl;
                          lra || lia))).
    unfold withinCube; simpl. lra.
  - apply (proj1 (proj2 (identity_frustum_classifies false cubeFrustum
                    (Aabb.new (V3 1000 1000 1000) (V3 1001 1001 1001))
                    (identity_frustum false)
                    ltac:(unfold AabbSpec.ordered; simpl; lra)
                    ltac:(intros p axis Hin Hax; simpl in Hin;
                          each_member Hin;
                          destruct axis as [| [| [| ?]]]; simpl;
                          lra || lia)))).
    unfold missesCube; simpl. lra.
Defined.

(** ** Ray.closestPointOnSphere: the miss branch for a unit direction *)

Lemma miss_point_radial (vpos vdir vc : Vec3) (r : R) :
  let t := Rmax (V3ops.dot (V3ops.scale (Sphere.centerToP vpos vc) (-1)) vdir)
             0 in
  Sphere.missPoint vpos vdir vc r
  = V3ops.scale (Sphere.pointAt vpos vdir vc t)
      (r / V3ops.length (Sphere.pointAt vpos vdir vc t)).
Proof.
  intros t. unfold Sphere.missPoint. fold t.
  set (pointOnRay := V3ops.add vpos (V3ops.scale vdir t)).
  set (toCenter := V3ops.sub vc pointOnRay).
  rewrite (miss_output pointOnRay toCenter vc _ eq_refl).
  assert (V3ops.scale toCenter (-1) = Sphere.pointAt vpos vdir vc t) as E.
  { unfold toCenter, pointOnRay, Sphere.pointAt, V3ops.scale, V3ops.sub,
      V3ops.add; simpl. f_equal; ring. }
  rewrite <- (length_neg toCenter), E. reflexivity.
Qed.

(** For a unit direction the clamped dot product gives the point of the
    ray nearest to the centre. *)
Lemma clamped_nearest (vpos vdir vc : Vec3) (r t' : R) :
  V3ops.squaredLength vdir = 1 -> 0 <= t' ->
  let t := Rmax (V3ops.dot (V3ops.scale (Sphere.centerToP vpos vc) (-1)) vdir)
             0 in
  V3ops.length (Sphere.pointAt vpos vdir vc t)
  <= V3ops.length (Sphere.pointAt vpos vdir vc t').
Proof.
  intros Hunit Ht' t. unfold V3ops.length, Sphere.pointAt.
  rewrite !(point_on_ray_sq vpos vdir vc r).
  change (V3ops.dot vdir vdir) with (V3ops.squaredLength vdir).
  rewrite Hunit.
  set (b := 2 * V3ops.dot (V3ops.sub vpos vc) vdir).
  set (c := V3ops.dot (V3ops.sub vpos vc) (V3ops.sub vpos vc) - r * r).
  assert (V3ops.dot (V3ops.scale (Sphere.centerToP vpos vc) (-1)) vdir
          = - b / 2) as Hp.
  { unfold b, Sphere.centerToP, V3ops.dot, V3ops.scale; simpl. field. }
  apply sqrt_le_1_alt.
  unfold t. rewrite Hp. unfold Rmax.
  destruct (Rle_dec (- b / 2) 0) as [Hle | Hgt].
  - nra.
  - assert (1 * t' * t' + b * t' + c + r * r
            - (1 * (- b / 2) * (- b / 2) + b * (- b / 2) + c + r * r)
            = (t' + b / 2) * (t' + b / 2)) as Hsq by field.
    pose proof (Rle_0_sqr (t' + b / 2)) as Hs. unfold Rsqr in Hs. lra.
Qed.

(** X19.  For a direction of length 1, a call whose discriminant is negative
    leaves in [out] the radial projection onto the sphere of the point of
    the ray that is nearest to the centre: [out] is [p * (r / |p|)] with
    [p = pos + t * dir - center], [t >= 0], and no point of the ray is
    nearer to the centre than the one at [t]. *)
Theorem closestPointOnSphere_miss_nearest (h : heap) (this : Ray.t)
    (center : loc) (r : R) (out : loc) (vpos vdir vc : Vec3) :
  h !! Ray.pos this = Some vpos -> h !! Ray.dir this = Some vdir ->
  h !! center = Some vc -> (out < length h)%nat ->
  V3ops.squaredLength vdir = 1 -> r > 0 ->
  V3ops.equals vpos vc = false ->
  Sphere.discriminant vpos vdir vc r < 0 ->
  exists h' t,
    Ray.closestPointOnSphere this center r out h = Returned false h'
    /\ 0 <= t
    /\ h' !! out
       = Some (V3ops.scale (Sphere.pointAt vpos vdir vc t)
                 (r / V3ops.length (Sphere.pointAt vpos vdir vc t)))
    /\ forall t', 0 <= t' ->
         V3ops.length (Sphere.pointAt vpos vdir vc t)
         <= V3ops.length (Sphere.pointAt vpos vdir vc t').
Proof.
  intros Hpos Hdir Hc Hout Hunit Hr Hne Hd.
  destruct (closest_miss h this vpos vdir Hpos Hdir center out vc r Hc Hout)
    as [tmps Hrun].
  - apply precondition_holds; lra.
  - apply not_degenerate; [exact Hne | lra].
  - apply Rltb_true. exact Hd.
  - eexists. eexists. split; [exact Hrun |]. split; [apply Rmax_r |]. split.
    + rewrite lookup_written by exact Hout. f_equal.
      apply (miss_point_radial vpos vdir vc r).
    + intros t' Ht'. apply (clamped_nearest vpos vdir vc r t' Hunit Ht').
Qed.

Lemma closestPointOnSphere_miss_nearest_witness :
  exists h' t,
    Ray.closestPointOnSphere (Ray.new 0 1) 2 1 3
      [V3 0 0 0; V3 1 0 0; V3 3 4 0; V3 7 8 9]
    = Returned false h'
    /\ 0 <= t
    /\ forall t', 0 <= t' ->
         V3ops.length (Sphere.pointAt (V3 0 0 0) (V3 1 0 0) (V3 3 4 0) t)
         <= V3ops.length (Sphere.pointAt (V3 0 0 0) (V3 1 0 0) (V3 3 4 0) t').
Proof.
  destruct (closestPointOnSphere_miss_nearest
              [V3 0 0 0; V3 1 0 0; V3 3 4 0; V3 7 8 9]
              (Ray.new 0 1) 2 1 3 _ _ _
              eq_refl eq_refl eq_refl ltac:(simpl; lia))
    as [h' [t [Hrun [Ht [_ Hmin]]]]].
  - unfold V3ops.squaredLength; simpl. lra.
  - lra.
  - unfold V3ops.equals, V3ops.near, EPSILON; simpl. Rdecide.
  - unfold_sphere. lra.
  - exists h', t. split; [exact Hrun |]. split; [exact Ht | exact Hmin].
Defined.
